(** * Domain Connect client: template resolution and URL construction

    A shallow embedding of the pure utilities ([replaceVariables],
    [generateRecords], [validateParameters], [splitHostname]) and of the
    client methods ([generateSyncURL], [generateAsyncURL],
    [applyTemplateSynchronous], [applyTemplateAsynchronous],
    [discoverSettings]) of the Domain Connect TypeScript library.

    Conventions of the model.
    - A JavaScript string is a [string]: the sequence of its bytes (UTF-8).
      All characters the code inspects are ASCII.
    - An optional field [f?: T] is an [option T]; [undefined] is [None].
    - [Record<string, string | number | boolean>] is an ordinary object
      (an object literal, or what [JSON.parse] returns): the list of its
      own entries in [Object.entries] order, on top of [Object.prototype].
      [params[k]] reads the first (in a JavaScript object: the only) own
      entry whose key is [k] and, when there is none, the member of
      [Object.prototype] of that name; it is [undefined] only when there
      is neither.
    - Numbers are kept abstract behind [JsNumber]; the only operation the
      code applies to them is [String(n)].
    - An [async] method is a tree of the requests and console calls it
      makes; [exec] runs it against a network and yields the trace and
      how the promise settles. *)

From Stdlib Require Import Bool Arith ZArith Lia List Ascii String DecimalString DecimalPos DecimalZ.
Import ListNotations.
Open Scope string_scope.

Set Implicit Arguments.

(** ** Scalars and parameter maps *)

(** [String(n)] on a number. *)
Class JsNumber (num : Type) : Type := { number_toString : num -> string }.

(** The numbers of the library's tests and examples are integers of
    small magnitude, which [String(n)] prints as signed decimal numerals.
    This instance covers those only: a number with a fraction, [NaN], an
    infinity, or an integer from [1e21] on (printed with an exponent) is
    no value of it.  The theorems below hold for every instance. *)
#[export] Instance JsNumber_Z : JsNumber Z :=
  {| number_toString := fun z => NilZero.string_of_int (Z.to_int z) |}.

Inductive scalar (num : Type) : Type :=
| SString (s : string)
| SNumber (n : num)
| SBoolean (b : bool).

Arguments SString {num} s.
Arguments SNumber {num} n.
Arguments SBoolean {num} b.

(** [String(value)] for [value : string | number | boolean]. *)
Definition ToString {num} `{JsNumber num} (v : scalar num) : string :=
  match v with
  | SString s => s
  | SNumber n => number_toString n
  | SBoolean true => "true"
  | SBoolean false => "false"
  end.

Definition Params (num : Type) : Type := list (string * scalar num).

(** The own entry of the object under [key]. *)
Fixpoint own {num} (params : Params num) (key : string) : option (scalar num) :=
  match params with
  | [] => None
  | (k, v) :: rest => if String.eqb k key then Some v else own rest key
  end.

(** What an ordinary object inherits: the built-in methods of
    [Object.prototype], and [Object.prototype] itself, which the accessor
    [__proto__] yields. *)
Inductive inherited : Type :=
| NativeFunction (name : string)
| PrototypeObject.

(** The members of [Object.prototype]
    ([Object.getOwnPropertyNames(Object.prototype)]). *)
Definition Object_prototype : list (string * inherited) :=
  [ ("constructor", NativeFunction "Object");
    ("__defineGetter__", NativeFunction "__defineGetter__");
    ("__defineSetter__", NativeFunction "__defineSetter__");
    ("hasOwnProperty", NativeFunction "hasOwnProperty");
    ("__lookupGetter__", NativeFunction "__lookupGetter__");
    ("__lookupSetter__", NativeFunction "__lookupSetter__");
    ("isPrototypeOf", NativeFunction "isPrototypeOf");
    ("propertyIsEnumerable", NativeFunction "propertyIsEnumerable");
    ("toString", NativeFunction "toString");
    ("valueOf", NativeFunction "valueOf");
    ("__proto__", PrototypeObject);
    ("toLocaleString", NativeFunction "toLocaleString") ].

(** The member of [Object.prototype] called [key]. *)
Definition prototype_member (key : string) : option inherited :=
  option_map snd (find (fun member => String.eqb (fst member) key) Object_prototype).

(** What reading a property of a parameter object yields when it is not
    [undefined]: the value of an own entry or an inherited member. *)
Inductive property (num : Type) : Type :=
| Own (v : scalar num)
| Inherited (member : inherited).

Arguments Own {num} v.
Arguments Inherited {num} member.

(** [params[key]]; [None] is [undefined]. *)
Definition get {num} (params : Params num) (key : string) : option (property num) :=
  match own params key with
  | Some v => Some (Own v)
  | None => option_map Inherited (prototype_member key)
  end.

(** [String(f)] on a built-in function, as Node.js prints it, and
    [String(Object.prototype)]. *)
Definition inherited_toString (member : inherited) : string :=
  match member with
  | NativeFunction name => "function " ++ name ++ "() { [native code] }"
  | PrototypeObject => "[object Object]"
  end.

(** [String(params[key])] where [params[key]] is not [undefined]. *)
Definition property_toString {num} `{JsNumber num} (p : property num) : string :=
  match p with
  | Own v => ToString v
  | Inherited member => inherited_toString member
  end.

Definition keys {num} (params : Params num) : list string := map fst params.

(** Truthiness of an optional string ([if (host)]): defined and non-empty. *)
Definition truthy_string (o : option string) : bool :=
  match o with
  | Some s => negb (String.eqb s "")
  | None => false
  end.

(** Truthiness of an optional boolean ([if (settings.syncEnabled)]). *)
Definition truthy_bool (o : option bool) : bool :=
  match o with
  | Some b => b
  | None => false
  end.

(** ** A backtracking matcher for the regular expressions of the library *)

Module RegExp.

Inductive regex : Type :=
| Eps                                    (* the empty pattern *)
| Chr (c : ascii)                        (* a literal character *)
| Cls (ranges : list (ascii * ascii))    (* [lo-hi...] *)
| Seq (r1 r2 : regex)                    (* r1 r2 *)
| Alt (r1 r2 : regex)                    (* r1|r2 *)
| Plus (r : regex)                       (* r+ (greedy) *)
| Times (n : nat) (r : regex)            (* r{n} *)
| Group (r : regex)                      (* (r), capturing *)
| Bol                                    (* ^ *)
| Eol.                                   (* $ *)

(** A matcher state: characters consumed so far, the input that is left,
    and the captures closed so far (in closing order). *)
Record state : Type := { index : nat; rest : string; captures : list string }.

Definition in_ranges (c : ascii) (ranges : list (ascii * ascii)) : bool :=
  existsb (fun r => (nat_of_ascii (fst r) <=? nat_of_ascii c)
                    && (nat_of_ascii c <=? nat_of_ascii (snd r)))%nat ranges.

Arguments in_ranges : simpl never.

Definition cont : Type := state -> option state.

Definition step_char (p : ascii -> bool) (st : state) (k : cont) : option state :=
  match rest st with
  | String a s' =>
      if p a then k {| index := S (index st); rest := s'; captures := captures st |}
      else None
  | EmptyString => None
  end.

(** Greedy iteration of [body]: one more round first, the continuation
    if that fails.  [fuel] bounds the number of further rounds. *)
Fixpoint plus_loop (body : state -> cont -> option state) (k : cont)
         (fuel : nat) (st : state) : option state :=
  body st (fun st' =>
    match fuel with
    | S fuel' =>
        match plus_loop body k fuel' st' with
        | Some r => Some r
        | None => k st'
        end
    | O => k st'
    end).

Fixpoint times_loop (body : state -> cont -> option state) (k : cont)
         (n : nat) (st : state) : option state :=
  match n with
  | O => k st
  | S n' => body st (times_loop body k n')
  end.

Fixpoint run (r : regex) (st : state) (k : cont) {struct r} : option state :=
  match r with
  | Eps => k st
  | Chr c => step_char (Ascii.eqb c) st k
  | Cls ranges => step_char (fun a => in_ranges a ranges) st k
  | Seq r1 r2 => run r1 st (fun st' => run r2 st' k)
  | Alt r1 r2 =>
      match run r1 st k with
      | Some res => Some res
      | None => run r2 st k
      end
  | Plus r' => plus_loop (run r') k (String.length (rest st)) st
  | Times n r' => times_loop (run r') k n st
  | Group r' =>
      run r' st (fun st' =>
        k {| index := index st';
             rest := rest st';
             captures := captures st
               ++ [substring 0 (index st' - index st) (rest st)] |})
  | Bol => if (index st =? 0)%nat then k st else None
  | Eol => match rest st with EmptyString => k st | _ => None end
  end.

(** A literal word, character by character. *)
Fixpoint Lit (w : string) : regex :=
  match w with
  | EmptyString => Eps
  | String c w' => Seq (Chr c) (Lit w')
  end.

(** A match found at some position: its text and its captures. *)
Record result : Type := { matched : string; groups : list string }.

(** Try the pattern at position [pos], where [s] is the input from [pos] on. *)
Definition exec_at (re : regex) (pos : nat) (s : string) : option result :=
  match run re {| index := pos; rest := s; captures := [] |} Some with
  | Some st => Some {| matched := substring 0 (index st - pos) s;
                       groups := captures st |}
  | None => None
  end.

(** [input.match(re)] without the [g] flag: the leftmost match, [None]
    for [null]. *)
Fixpoint search_from (re : regex) (pos : nat) (s : string) : option result :=
  match exec_at re pos s with
  | Some m => Some m
  | None =>
      match s with
      | String _ s' => search_from re (S pos) s'
      | EmptyString => None
      end
  end.

Definition String_match (input : string) (re : regex) : option result :=
  search_from re 0 input.

(** [input.replace(re, fn)] with the [g] flag.  [s] is the input from
    [pos] on; [skip] counts the characters of the match being replaced
    that are still to be passed over. *)
Fixpoint replace_from (re : regex) (fn : string -> list string -> string)
         (pos : nat) (s : string) (skip : nat) {struct s} : string :=
  match skip with
  | S skip' =>
      match s with
      | String _ s' => replace_from re fn (S pos) s' skip'
      | EmptyString => EmptyString
      end
  | O =>
      match exec_at re pos s with
      | Some m =>
          fn (matched m) (groups m) ++
          match String.length (matched m), s with
          | _, EmptyString => EmptyString
          | O, String c s' => String c (replace_from re fn (S pos) s' 0)
          | S n, String _ s' => replace_from re fn (S pos) s' n
          end
      | None =>
          match s with
          | String c s' => String c (replace_from re fn (S pos) s' 0)
          | EmptyString => EmptyString
          end
      end
  end.

Definition String_replace_all (input : string) (re : regex)
           (fn : string -> list string -> string) : string :=
  replace_from re fn 0 input 0.

End RegExp.

Import RegExp.

(** ** utils.ts *)

Section Utils.

Context {num : Type} `{JsNumber num}.

(** [[a-zA-Z0-9_]] *)
Definition ident_ranges : list (ascii * ascii) :=
  [("a", "z"); ("A", "Z"); ("0", "9"); ("_", "_")]%char.

(** [/%([a-zA-Z0-9_]+)%/] *)
Definition variable_re : regex :=
  Seq (Chr "%") (Seq (Group (Plus (Cls ident_ranges))) (Chr "%")).

Definition replaceVariables (text : string) (params : Params num) : string :=
  String_replace_all text variable_re (fun match_ caps =>
    let varName := nth 0 caps "" in
    match get params varName with
    | Some p => property_toString p
    | None => match_
    end).

End Utils.


(** ** types.ts *)

Inductive RecordType : Type := A | AAAA | CNAME | TXT | SRV | MX | NS | SPFM | PTR.

Inductive DataType : Type := STRING | NUMBER | EMAIL | URL | BOOLEAN.

Module TemplateParameter.
Record t (num : Type) : Type := {
  name : string;
  dataType : option DataType;
  required : option bool;
  defaultValue : option (scalar num);
  description : option string;
  hidden : option bool
}.
End TemplateParameter.

Module TemplateRecord.
Record t (num : Type) : Type := {
  type : RecordType;
  host : string;
  pointsTo : option string;
  ttl : option num;
  priority : option num;
  weight : option num;
  port : option num
}.

Definition set_host {num} (r : t num) (h : string) : t num :=
  {| type := type r; host := h; pointsTo := pointsTo r; ttl := ttl r;
     priority := priority r; weight := weight r; port := port r |}.

Definition set_pointsTo {num} (r : t num) (p : option string) : t num :=
  {| type := type r; host := host r; pointsTo := p; ttl := ttl r;
     priority := priority r; weight := weight r; port := port r |}.
End TemplateRecord.

Module Template.
Record t (num : Type) : Type := {
  providerId : string;
  serviceId : string;
  name : option string;
  description : option string;
  version : option string;
  hostRequired : option bool;
  parameters : option (list (TemplateParameter.t num));
  records : list (TemplateRecord.t num);
  logoUrl : option string;
  syncSupported : option bool;
  asyncSupported : option bool
}.
End Template.

Module DomainConnectSettings.
Record t : Type := {
  urlAPI : string;
  syncEnabled : option bool;
  asyncEnabled : option bool;
  urlAsyncAPI : option string
}.
End DomainConnectSettings.

Module DomainConnectOptions.
Record t (num : Type) : Type := {
  domain : string;
  providerId : string;
  serviceId : string;
  params : Params num;
  host : option string;
  redirectUri : option string;
  state : option string;
  forcePermission : option bool
}.
End DomainConnectOptions.

Module DomainConnectResult.
Record t : Type := {
  success : bool;
  redirectUrl : option string;
  error : option string;
  asyncStatusUrl : option string
}.
End DomainConnectResult.

(** ** Array and string helpers of the JavaScript runtime *)

(** [s.split(sep)] for a one-character separator. *)
Fixpoint split (s : string) (sep : ascii) : list string :=
  match s with
  | EmptyString => [EmptyString]
  | String c s' =>
      if Ascii.eqb c sep then EmptyString :: split s' sep
      else match split s' sep with
           | h :: t => String c h :: t
           | [] => [String c EmptyString]
           end
  end.

(** [parts.join(sep)] *)
Definition join (parts : list string) (sep : string) : string :=
  String.concat sep parts.

(** [arr.slice(start, end)]: negative indices count from the end, and both
    are clamped to the array. *)
Definition slice {T} (arr : list T) (start : Z) (end_ : option Z) : list T :=
  let len := Z.of_nat (List.length arr) in
  let clamp i := if (i <? 0)%Z then Z.max (len + i) 0 else Z.min i len in
  let k := clamp start in
  let final := match end_ with Some e => clamp e | None => len end in
  firstn (Z.to_nat (final - k)) (skipn (Z.to_nat k) arr).

(** ** utils.ts, continued *)

Section Records.

Context {num : Type} `{JsNumber num}.

(** [record.pointsTo || ''] *)
Definition or_empty (o : option string) : string :=
  match o with
  | Some s => if truthy_string o then s else ""
  | None => ""
  end.

(** The arrow function [generateRecords] maps over [template.records].
    [h] is the caller host as a string; it is read only where [host] is
    truthy. *)
Definition resolveRecord (params : Params num) (host : option string)
           (record : TemplateRecord.t num) : TemplateRecord.t num :=
  let h := match host with Some h => h | None => "" end in
  let resolvedRecord := record in
  let resolvedRecord :=
    TemplateRecord.set_host resolvedRecord
      (replaceVariables (TemplateRecord.host record) params) in
  let resolvedRecord :=
    if truthy_string host then
      if String.eqb (TemplateRecord.host resolvedRecord) "@" then
        TemplateRecord.set_host resolvedRecord h
      else if negb (String.eqb (TemplateRecord.host resolvedRecord) "%host%") then
        TemplateRecord.set_host resolvedRecord
          (TemplateRecord.host resolvedRecord ++ "." ++ h)
      else resolvedRecord
    else resolvedRecord in
  let resolvedRecord :=
    if String.eqb (TemplateRecord.host resolvedRecord) "%host%"
       && truthy_string host then
      TemplateRecord.set_host resolvedRecord h
    else if String.eqb (TemplateRecord.host resolvedRecord) "%host%"
            && negb (truthy_string host) then
      TemplateRecord.set_host resolvedRecord "@"
    else resolvedRecord in
  let resolvedRecord :=
    if truthy_string (TemplateRecord.pointsTo resolvedRecord) then
      TemplateRecord.set_pointsTo resolvedRecord
        (Some (replaceVariables (or_empty (TemplateRecord.pointsTo record)) params))
    else resolvedRecord in
  resolvedRecord.

Definition generateRecords (template : Template.t num) (params : Params num)
           (domain : string) (host : option string) : list (TemplateRecord.t num) :=
  map (resolveRecord params host) (Template.records template).

Record ValidationResult : Type := { valid : bool; missing : list string }.

Definition validateParameters (template : Template.t num) (params : Params num)
  : ValidationResult :=
  match Template.parameters template with
  | None => {| valid := true; missing := [] |}
  | Some parameters =>
      let missingParams :=
        map (@TemplateParameter.name num)
          (filter (fun param =>
                     truthy_bool (TemplateParameter.required param)
                     && match get params (TemplateParameter.name param) with
                        | None => true
                        | Some _ => false
                        end)
                  parameters) in
      {| valid := (List.length missingParams =? 0)%nat;
         missing := missingParams |}
  end.

End Records.

Record SplitResult : Type := { domain : string; subdomain : option string }.

(** [/^(co|com|net|org|gov|edu)\.[a-z]{2}$/] *)
Definition sld_re : regex :=
  Seq Bol
    (Seq (Group (Alt (Lit "co") (Alt (Lit "com") (Alt (Lit "net")
            (Alt (Lit "org") (Alt (Lit "gov") (Lit "edu")))))))
       (Seq (Chr ".") (Seq (Times 2 (Cls [("a", "z")]%char)) Eol))).

Definition splitHostname (hostname : string) : SplitResult :=
  let parts := split hostname "." in
  if (2 <? List.length parts)%nat then
    let tld := join (slice parts (-2) None) "." in
    match String_match tld sld_re with
    | Some _ =>
        if (3 <? List.length parts)%nat then
          {| domain := join (slice parts (-3) None) ".";
             subdomain := Some (join (slice parts 0 (Some (-3)%Z)) ".") |}
        else {| domain := hostname; subdomain := None |}
    | None =>
        {| domain := join (slice parts (-2) None) ".";
           subdomain := Some (join (slice parts 0 (Some (-2)%Z)) ".") |}
    end
  else {| domain := hostname; subdomain := None |}.

(** ** URLSearchParams *)

Module URLSearchParams.

(** The list of name-value pairs, in insertion order. *)
Definition t : Type := list (string * string).

Definition empty : t := [].

Definition append (q : t) (name value : string) : t :=
  (q ++ [(name, value)])%list.

Definition hex_digit (n : nat) : ascii :=
  nth n ["0"; "1"; "2"; "3"; "4"; "5"; "6"; "7"; "8"; "9";
         "A"; "B"; "C"; "D"; "E"; "F"]%char "0"%char.

(** Bytes the application/x-www-form-urlencoded serializer leaves as
    they are: ASCII letters and digits and [* - . _]. *)
Definition unreserved (c : ascii) : bool :=
  in_ranges c [("a", "z"); ("A", "Z"); ("0", "9");
               ("*", "*"); ("-", "-"); (".", "."); ("_", "_")]%char.

Definition encode_byte (c : ascii) : string :=
  if unreserved c then String c EmptyString
  else if Ascii.eqb c " " then "+"
  else String "%" (String (hex_digit (nat_of_ascii c / 16))
                     (String (hex_digit (nat_of_ascii c mod 16)) EmptyString)).

Fixpoint encode (s : string) : string :=
  match s with
  | EmptyString => EmptyString
  | String c s' => encode_byte c ++ encode s'
  end.

(** [queryParams.toString()] *)
Definition toString (q : t) : string :=
  String.concat "&" (map (fun nv => encode (fst nv) ++ "=" ++ encode (snd nv)) q).

End URLSearchParams.

(** ** Effects of the client: HTTP requests, console output, exceptions *)

(** A thrown value: an [Error] with its message, or anything else. *)
Inductive thrown : Type :=
| ErrorObject (message : string)
| OtherValue.

(** [error instanceof Error ? error.message : 'Unknown error'] *)
Definition error_message (e : thrown) : string :=
  match e with
  | ErrorObject m => m
  | OtherValue => "Unknown error"
  end.

(** What the code reads of an axios response: the status and, as [data],
    the body of a discovery answer ([None] for a falsy body). *)
Record AxiosResponse : Type := {
  status : Z;
  data : option DomainConnectSettings.t
}.

Inductive settled : Type :=
| Fulfilled (response : AxiosResponse)
| Rejected (reason : thrown).

Inductive io (T : Type) : Type :=
| Ret (v : T)
| Throw (e : thrown)
| AxiosGet (url : string) (k : settled -> io T)
| ConsoleLog (msg : string) (k : io T)
| ConsoleError (msg : string) (e : thrown) (k : io T).

Arguments Ret {T} v.
Arguments Throw {T} e.
Arguments AxiosGet {T} url k.
Arguments ConsoleLog {T} msg k.
Arguments ConsoleError {T} msg e k.

Fixpoint bind {T U} (m : io T) (f : T -> io U) : io U :=
  match m with
  | Ret v => f v
  | Throw e => Throw e
  | AxiosGet url k => AxiosGet url (fun r => bind (k r) f)
  | ConsoleLog msg k => ConsoleLog msg (bind k f)
  | ConsoleError msg e k => ConsoleError msg e (bind k f)
  end.

(** [try { body } catch (error) { handler }] *)
Fixpoint try_catch {T} (body : io T) (handler : thrown -> io T) : io T :=
  match body with
  | Ret v => Ret v
  | Throw e => handler e
  | AxiosGet url k => AxiosGet url (fun r => try_catch (k r) handler)
  | ConsoleLog msg k => ConsoleLog msg (try_catch k handler)
  | ConsoleError msg e k => ConsoleError msg e (try_catch k handler)
  end.

Declare Scope io_scope.
Delimit Scope io_scope with io.
Notation "x <- m ;; f" := (bind m (fun x => f))
  (at level 61, m at next level, right associativity) : io_scope.
Notation "m ;; f" := (bind m (fun _ => f))
  (at level 61, right associativity) : io_scope.

(** [await axios.get(url)]: the response, or the rejection thrown. *)
Definition axios_get (url : string) : io AxiosResponse :=
  AxiosGet url (fun r =>
    match r with
    | Fulfilled response => Ret response
    | Rejected reason => Throw reason
    end).

Definition console_log (msg : string) : io unit := ConsoleLog msg (Ret tt).

Definition console_error (msg : string) (e : thrown) : io unit :=
  ConsoleError msg e (Ret tt).

(** *** Running a program against a network *)

Inductive event : Type :=
| EvGet (url : string)
| EvLog (msg : string)
| EvError (msg : string) (e : thrown).

(** How an [async] method settles. *)
Inductive completion (T : Type) : Type :=
| Resolves (v : T)
| Rejects (e : thrown).

Arguments Resolves {T} v.
Arguments Rejects {T} e.

(** A network answers each request knowing the requests made before it. *)
Definition network : Type := list string -> string -> settled.

Fixpoint exec {T} (net : network) (history : list string) (p : io T)
  : list event * completion T :=
  match p with
  | Ret v => ([], Resolves v)
  | Throw e => ([], Rejects e)
  | AxiosGet url k =>
      let r := exec net (history ++ [url])%list (k (net history url)) in
      (EvGet url :: fst r, snd r)
  | ConsoleLog msg k =>
      let r := exec net history k in (EvLog msg :: fst r, snd r)
  | ConsoleError msg e k =>
      let r := exec net history k in (EvError msg e :: fst r, snd r)
  end.

(** The URLs requested, in order. *)
Definition requests (trace : list event) : list string :=
  flat_map (fun ev => match ev with EvGet url => [url] | _ => [] end) trace.

(** ** client.ts *)

Section Client.

Context {num : Type} `{JsNumber num}.

Local Open Scope io_scope.

(** [Object.entries(params).forEach(([key, value]) =>
      queryParams.append(key, String(value)))] *)
Definition append_params (queryParams : URLSearchParams.t) (params : Params num)
  : URLSearchParams.t :=
  fold_left (fun q kv => URLSearchParams.append q (fst kv) (ToString (snd kv)))
            params queryParams.

(** The value of an optional string where the code has found it truthy. *)
Definition value_of (o : option string) : string :=
  match o with Some s => s | None => "" end.

Definition generateSyncURL (settings : DomainConnectSettings.t)
           (options : DomainConnectOptions.t num) : string :=
  let domain := DomainConnectOptions.domain options in
  let providerId := DomainConnectOptions.providerId options in
  let serviceId := DomainConnectOptions.serviceId options in
  let params := DomainConnectOptions.params options in
  let host := DomainConnectOptions.host options in
  let apiUrl := DomainConnectSettings.urlAPI settings
                ++ "/v2/domainTemplates/providers/" ++ providerId
                ++ "/services/" ++ serviceId ++ "/apply" in
  let queryParams := URLSearchParams.empty in
  let queryParams := URLSearchParams.append queryParams "domain" domain in
  let queryParams :=
    if truthy_string host
    then URLSearchParams.append queryParams "host" (value_of host)
    else queryParams in
  let queryParams := append_params queryParams params in
  apiUrl ++ "?" ++ URLSearchParams.toString queryParams.

Definition generateAsyncURL (settings : DomainConnectSettings.t)
           (options : DomainConnectOptions.t num) : option string :=
  if negb (truthy_bool (DomainConnectSettings.asyncEnabled settings))
     || negb (truthy_string (DomainConnectSettings.urlAsyncAPI settings))
  then None
  else
    let domain := DomainConnectOptions.domain options in
    let providerId := DomainConnectOptions.providerId options in
    let serviceId := DomainConnectOptions.serviceId options in
    let params := DomainConnectOptions.params options in
    let host := DomainConnectOptions.host options in
    let redirectUri := DomainConnectOptions.redirectUri options in
    let state := DomainConnectOptions.state options in
    let forcePermission := DomainConnectOptions.forcePermission options in
    let apiUrl := value_of (DomainConnectSettings.urlAsyncAPI settings)
                  ++ "/v2/domainTemplates/providers/" ++ providerId in
    let apiUrl := apiUrl ++ "/services/" ++ serviceId ++ "/apply" in
    let queryParams := URLSearchParams.empty in
    let queryParams := URLSearchParams.append queryParams "domain" domain in
    let queryParams :=
      if truthy_string host
      then URLSearchParams.append queryParams "host" (value_of host)
      else queryParams in
    let queryParams :=
      if truthy_string redirectUri
      then URLSearchParams.append queryParams "redirect_uri" (value_of redirectUri)
      else queryParams in
    let queryParams :=
      if truthy_string state
      then URLSearchParams.append queryParams "state" (value_of state)
      else queryParams in
    let queryParams :=
      if truthy_bool forcePermission
      then URLSearchParams.append queryParams "force" "true"
      else queryParams in
    let queryParams := append_params queryParams params in
    Some (apiUrl ++ "?" ++ URLSearchParams.toString queryParams).

(** [{ success: false, error: msg }] *)
Definition failure (msg : string) : DomainConnectResult.t :=
  {| DomainConnectResult.success := false;
     DomainConnectResult.redirectUrl := None;
     DomainConnectResult.error := Some msg;
     DomainConnectResult.asyncStatusUrl := None |}.

Definition applyTemplateSynchronous (settings : DomainConnectSettings.t)
           (options : DomainConnectOptions.t num) : io DomainConnectResult.t :=
  try_catch
    (if negb (truthy_bool (DomainConnectSettings.syncEnabled settings)) then
       Ret (failure "Synchronous mode not supported by DNS provider")
     else
       let domain := DomainConnectOptions.domain options in
       let providerId := DomainConnectOptions.providerId options in
       let serviceId := DomainConnectOptions.serviceId options in
       let params := DomainConnectOptions.params options in
       let host := DomainConnectOptions.host options in
       let apiUrl := DomainConnectSettings.urlAPI settings
                     ++ "/v2/domainTemplates/providers/" ++ providerId
                     ++ "/services/" ++ serviceId ++ "/apply" in
       let queryParams := URLSearchParams.empty in
       let queryParams := URLSearchParams.append queryParams "domain" domain in
       let queryParams :=
         if truthy_string host
         then URLSearchParams.append queryParams "host" (value_of host)
         else queryParams in
       let queryParams := append_params queryParams params in
       let apiUrl := apiUrl ++ "?" ++ URLSearchParams.toString queryParams in
       response <- axios_get apiUrl ;;
       if (status response =? 200)%Z then
         Ret {| DomainConnectResult.success := true;
                DomainConnectResult.redirectUrl := None;
                DomainConnectResult.error := None;
                DomainConnectResult.asyncStatusUrl := None |}
       else
         Ret (failure ("Unexpected status code: "
                       ++ number_toString (status response))))
    (fun error =>
       console_error "Error applying template synchronously:" error ;;
       Ret (failure (error_message error))).

Definition applyTemplateAsynchronous (settings : DomainConnectSettings.t)
           (options : DomainConnectOptions.t num) : io DomainConnectResult.t :=
  try_catch
    (if negb (truthy_bool (DomainConnectSettings.asyncEnabled settings))
        || negb (truthy_string (DomainConnectSettings.urlAsyncAPI settings)) then
       Ret (failure "Asynchronous mode not supported by DNS provider")
     else
       let domain := DomainConnectOptions.domain options in
       let providerId := DomainConnectOptions.providerId options in
       let serviceId := DomainConnectOptions.serviceId options in
       let params := DomainConnectOptions.params options in
       let host := DomainConnectOptions.host options in
       let redirectUri := DomainConnectOptions.redirectUri options in
       let state := DomainConnectOptions.state options in
       let forcePermission := DomainConnectOptions.forcePermission options in
       let apiUrl := value_of (DomainConnectSettings.urlAsyncAPI settings)
                     ++ "/v2/domainTemplates/providers/" ++ providerId in
       let apiUrl := apiUrl ++ "/services/" ++ serviceId ++ "/apply" in
       let queryParams := URLSearchParams.empty in
       let queryParams := URLSearchParams.append queryParams "domain" domain in
       let queryParams :=
         if truthy_string host
         then URLSearchParams.append queryParams "host" (value_of host)
         else queryParams in
       let queryParams :=
         if truthy_string redirectUri
         then URLSearchParams.append queryParams "redirect_uri" (value_of redirectUri)
         else queryParams in
       let queryParams :=
         if truthy_string state
         then URLSearchParams.append queryParams "state" (value_of state)
         else queryParams in
       let queryParams :=
         if truthy_bool forcePermission
         then URLSearchParams.append queryParams "force" "true"
         else queryParams in
       let queryParams := append_params queryParams params in
       let apiUrl := apiUrl ++ "?" ++ URLSearchParams.toString queryParams in
       Ret {| DomainConnectResult.success := true;
              DomainConnectResult.redirectUrl := Some apiUrl;
              DomainConnectResult.error := None;
              DomainConnectResult.asyncStatusUrl := None |})
    (fun error =>
       console_error "Error preparing asynchronous template application:" error ;;
       Ret (failure (error_message error))).

End Client.

Section Discovery.

Local Open Scope io_scope.

(** One of the two inner [try]/[catch] blocks of [discoverSettings]; they
    differ in the URL and in the message logged.  [Some v] when the [try]
    block returns [v] from the method, [None] when control falls out of
    the [try]/[catch]. *)
Definition attempt (url : string) (failed : string)
  : io (option (option DomainConnectSettings.t)) :=
  try_catch
    (response <- axios_get url ;;
     match (status response =? 200)%Z, data response with
     | true, Some d =>
         Ret (Some (Some
           {| DomainConnectSettings.urlAPI := DomainConnectSettings.urlAPI d;
              DomainConnectSettings.syncEnabled := DomainConnectSettings.syncEnabled d;
              DomainConnectSettings.asyncEnabled := DomainConnectSettings.asyncEnabled d;
              DomainConnectSettings.urlAsyncAPI := DomainConnectSettings.urlAsyncAPI d |}))
     | _, _ => Ret None
     end)
    (fun error => console_log failed ;; Ret None).

Definition discoverSettings (domain : string) : io (option DomainConnectSettings.t) :=
  try_catch
    (let dnsQuery := "_domainconnect." ++ domain in
     returned <- attempt ("https://" ++ dnsQuery ++ "/v2/domainTemplates/providers")
                   ("DNS lookup failed for " ++ dnsQuery
                    ++ ", trying alternative method") ;;
     match returned with
     | Some v => Ret v
     | None =>
         returned <- attempt ("https://" ++ domain ++ "/.well-known/domain-connect.json")
                       ("Alternative method failed for " ++ domain) ;;
         match returned with
         | Some v => Ret v
         | None => Ret None
         end
     end)
    (fun error =>
       console_error "Error discovering Domain Connect settings:" error ;;
       Ret None).

End Discovery.


(** ** client.ts: status polling *)

Section Polling.

Local Open Scope io_scope.

Definition checkAsyncStatus (statusUrl : string) : io DomainConnectResult.t :=
  try_catch
    (response <- axios_get statusUrl ;;
     if (status response =? 200)%Z then
       Ret {| DomainConnectResult.success := true;
              DomainConnectResult.redirectUrl := None;
              DomainConnectResult.error := None;
              DomainConnectResult.asyncStatusUrl := None |}
     else if (status response =? 202)%Z then
       Ret (failure "Operation still in progress")
     else
       Ret (failure ("Unexpected status code: "
                     ++ number_toString (status response))))
    (fun error =>
       console_error "Error checking asynchronous status:" error ;;
       Ret (failure (error_message error))).

End Polling.

(** ** utils.ts: default settings *)

(** [Partial<DomainConnectSettings>]: for each property, [None] when the
    object has no such property, [Some v] when it has it with value [v]
    (for the optional properties [v] may itself be [undefined]).  A
    [urlAPI] that is present is a string. *)
Module PartialSettings.
Record t : Type := {
  urlAPI : option string;
  syncEnabled : option (option bool);
  asyncEnabled : option (option bool);
  urlAsyncAPI : option (option string)
}.
End PartialSettings.

(** One property of [{ ...defaults, ...overrides }]. *)
Definition spread {V : Type} (default : V) (override : option V) : V :=
  match override with
  | Some v => v
  | None => default
  end.

Definition formatSettingsUrl (domain : string) (settings : option PartialSettings.t)
  : DomainConnectSettings.t :=
  let defaultSettings :=
    {| DomainConnectSettings.urlAPI := "https://api.domainconnect." ++ domain;
       DomainConnectSettings.syncEnabled := Some true;
       DomainConnectSettings.asyncEnabled := Some true;
       DomainConnectSettings.urlAsyncAPI := Some ("https://api.domainconnect." ++ domain) |} in
  match settings with
  | None => defaultSettings
  | Some overrides =>
      {| DomainConnectSettings.urlAPI :=
           spread (DomainConnectSettings.urlAPI defaultSettings)
                  (PartialSettings.urlAPI overrides);
         DomainConnectSettings.syncEnabled :=
           spread (DomainConnectSettings.syncEnabled defaultSettings)
                  (PartialSettings.syncEnabled overrides);
         DomainConnectSettings.asyncEnabled :=
           spread (DomainConnectSettings.asyncEnabled defaultSettings)
                  (PartialSettings.asyncEnabled overrides);
         DomainConnectSettings.urlAsyncAPI :=
           spread (DomainConnectSettings.urlAsyncAPI defaultSettings)
                  (PartialSettings.urlAsyncAPI overrides) |}
  end.

(** ** client.ts: the directory of DNS providers *)

Record ProviderEntry : Type := { domains : list string; loginUrl : string }.

(** [this.dnsProviders], in the order of its entries. *)
Definition dnsProviders : list (string * ProviderEntry) :=
  [ ("Cloudflare",
     {| domains := ["cloudflare.com"; "cloudflare-dns.com"];
        loginUrl := "https://dash.cloudflare.com/login" |});
    ("GoDaddy",
     {| domains := ["domaincontrol.com"; "godaddy.com"];
        loginUrl := "https://sso.godaddy.com" |});
    ("Namecheap",
     {| domains := ["registrar-servers.com"; "namecheap.com"];
        loginUrl := "https://www.namecheap.com/myaccount/login/" |});
    ("Google Domains",
     {| domains := ["googledomains.com"; "domains.google.com"];
        loginUrl := "https://domains.google.com/registrar/login" |});
    ("Amazon Route 53",
     {| domains := ["awsdns"];
        loginUrl := "https://console.aws.amazon.com/route53/" |});
    ("DigitalOcean",
     {| domains := ["digitalocean.com"];
        loginUrl := "https://cloud.digitalocean.com/login" |});
    ("Bluehost",
     {| domains := ["bluehost.com"];
        loginUrl := "https://my.bluehost.com/hosting/login" |});
    ("HostGator",
     {| domains := ["hostgator.com"];
        loginUrl := "https://portal.hostgator.com/login" |});
    ("DreamHost",
     {| domains := ["dreamhost.com"];
        loginUrl := "https://panel.dreamhost.com/login" |});
    ("Name.com",
     {| domains := ["name.com"];
        loginUrl := "https://www.name.com/account/login" |});
    ("OVH",
     {| domains := ["ovh.net"];
        loginUrl := "https://www.ovh.com/auth/" |});
    ("1&1 IONOS",
     {| domains := ["1and1.com"; "ionos.com"];
        loginUrl := "https://login.ionos.com" |}) ].

(** The directory's own entry under [provider]. *)
Fixpoint own_entry (table : list (string * ProviderEntry)) (provider : string)
  : option ProviderEntry :=
  match table with
  | [] => None
  | (name, entry) :: table' =>
      if String.eqb name provider then Some entry else own_entry table' provider
  end.

(** What reading a property of the directory yields when it is not
    [undefined]: an entry, or a member the directory object inherits from
    [Object.prototype]. *)
Inductive directory_property : Type :=
| Listed (entry : ProviderEntry)
| Unlisted (member : inherited).

(** [this.dnsProviders[provider]]; [None] is [undefined]. *)
Definition lookup_provider (table : list (string * ProviderEntry)) (provider : string)
  : option directory_property :=
  match own_entry table provider with
  | Some entry => Some (Listed entry)
  | None => option_map Unlisted (prototype_member provider)
  end.

(** What a function declared to return [string | null] returns:
    [undefined] is what reading a property that does not exist gives. *)
Inductive LoginUrl : Type :=
| Url (url : string)
| Null
| Undefined.

(** An entry and an inherited member are both truthy; only an entry has
    the property [loginUrl]. *)
Definition getProviderLoginUrl (provider : string) : LoginUrl :=
  match lookup_provider dnsProviders provider with
  | Some (Listed entry) => Url (loginUrl entry)
  | Some (Unlisted _) => Undefined
  | None => Null
  end.

(** [c.toLowerCase()] on an ASCII character; nameservers and the
    directory's patterns are ASCII. *)
Definition lower_char (c : ascii) : ascii :=
  if in_ranges c [("A", "Z")]%char then ascii_of_nat (nat_of_ascii c + 32) else c.

(** [s.toLowerCase()] *)
Fixpoint toLowerCase (s : string) : string :=
  match s with
  | EmptyString => EmptyString
  | String c s' => String (lower_char c) (toLowerCase s')
  end.

(** [s.includes(sub)] *)
Fixpoint includes (s sub : string) : bool :=
  String.prefix sub s
  || match s with
     | String _ s' => includes s' sub
     | EmptyString => false
     end.

Definition identifyDnsProvider (nameservers : list string) : option string :=
  if (List.length nameservers =? 0)%nat then None
  else
    let lowerNameservers := map toLowerCase nameservers in
    match find (fun named =>
                  existsb (fun domain =>
                             existsb (fun ns => includes ns (toLowerCase domain))
                                     lowerNameservers)
                          (domains (snd named)))
               dnsProviders with
    | Some named => Some (fst named)
    | None =>
        let nsParts := split (nth 0 lowerNameservers "") "." in
        if (2 <=? List.length nsParts)%nat then
          let baseDomain :=
            nth (List.length nsParts - 2) nsParts ""
            ++ "." ++ nth (List.length nsParts - 1) nsParts "" in
          Some baseDomain
        else None
    end.

Record DnsProviderInfo : Type := {
  info_domain : string;
  info_nameservers : list string;
  info_provider : string;
  info_loginUrl : LoginUrl;
  info_error : option string
}.

(** [getDnsProviderInfo], with the DNS resolver it awaits as an argument:
    [resolveNs domain] is the list of nameservers or the value thrown. *)
Definition getDnsProviderInfo (resolveNs : string -> list string + thrown)
           (domain : string) : DnsProviderInfo :=
  match resolveNs domain with
  | inl nameservers =>
      let provider := identifyDnsProvider nameservers in
      let loginUrl :=
        match provider with
        | Some p => if truthy_string provider then getProviderLoginUrl p else Null
        | None => Null
        end in
      {| info_domain := domain;
         info_nameservers := nameservers;
         info_provider := if truthy_string provider then value_of provider else "Unknown";
         info_loginUrl := loginUrl;
         info_error := None |}
  | inr error =>
      {| info_domain := domain;
         info_nameservers := [];
         info_provider := "Unknown";
         info_loginUrl := Null;
         info_error := Some (error_message error) |}
  end.
(** * Specifications *)

(** ** Substitution, as the specification words it *)

(** [[A-Za-z0-9_]] *)
Definition is_ident_char (c : ascii) : bool := in_ranges c ident_ranges.

Fixpoint all_chars (p : ascii -> bool) (s : string) : bool :=
  match s with
  | EmptyString => true
  | String c s' => p c && all_chars p s'
  end.

Definition identifier_chars (s : string) : bool := all_chars is_ident_char s.

(** [[A-Za-z0-9_]+] *)
Definition is_identifier (id : string) : Prop :=
  id <> "" /\ identifier_chars id = true.

(** The text starts with a match of [%[A-Za-z0-9_]+%]. *)
Definition placeholder_at_head (text : string) : Prop :=
  exists id rest, is_identifier id /\ text = "%" ++ id ++ "%" ++ rest.

(** One left-to-right pass over the text: a placeholder whose identifier is
    a key is replaced by the value's string form, one whose identifier is
    not a key is copied, and so is every character that starts no
    placeholder.  The pass resumes after the placeholder, never inside it
    and never inside a replacement. *)
Inductive substitutes {num} `{JsNumber num} (params : Params num)
  : string -> string -> Prop :=
| subst_end : substitutes params "" ""
| subst_replace id v rest out :
    is_identifier id ->
    In id (keys params) ->
    own params id = Some v ->
    substitutes params rest out ->
    substitutes params ("%" ++ id ++ "%" ++ rest) (ToString v ++ out)
| subst_keep id rest out :
    is_identifier id ->
    ~ In id (keys params) ->
    substitutes params rest out ->
    substitutes params ("%" ++ id ++ "%" ++ rest) ("%" ++ id ++ "%" ++ out)
| subst_copy c rest out :
    ~ placeholder_at_head (String c rest) ->
    substitutes params rest out ->
    substitutes params (String c rest) (String c out).

(** ** Substitution, as the code does it *)

(** The name is a member of [Object.prototype]. *)
Definition is_inherited (name : string) : bool :=
  existsb (String.eqb name) (map fst Object_prototype).

(** The pass of [replaceVariables]: as [substitutes], except that a
    placeholder whose identifier is no key of the map but the name of a
    member of [Object.prototype] is replaced too, by the text [String]
    gives for that member. *)
Inductive replaces {num} `{JsNumber num} (params : Params num)
  : string -> string -> Prop :=
| replaces_end : replaces params "" ""
| replaces_own id v rest out :
    is_identifier id ->
    own params id = Some v ->
    replaces params rest out ->
    replaces params ("%" ++ id ++ "%" ++ rest) (ToString v ++ out)
| replaces_inherited id member rest out :
    is_identifier id ->
    ~ In id (keys params) ->
    In (id, member) Object_prototype ->
    replaces params rest out ->
    replaces params ("%" ++ id ++ "%" ++ rest) (inherited_toString member ++ out)
| replaces_keep id rest out :
    is_identifier id ->
    ~ In id (keys params) ->
    is_inherited id = false ->
    replaces params rest out ->
    replaces params ("%" ++ id ++ "%" ++ rest) ("%" ++ id ++ "%" ++ out)
| replaces_copy c rest out :
    ~ placeholder_at_head (String c rest) ->
    replaces params rest out ->
    replaces params (String c rest) (String c out).

(** A key a placeholder can name: a non-empty word of [[A-Za-z0-9_]]. *)
Definition usable_key (key : string) : bool :=
  negb (String.eqb key "") && identifier_chars key.

(** The entries of the map a placeholder can name. *)
Definition usable_entries {num} (params : Params num) : Params num :=
  filter (fun entry => usable_key (fst entry)) params.

(** ** Auxiliary definitions of the proofs *)

(** The longest prefix of characters satisfying [p], and what follows. *)
Fixpoint span (p : ascii -> bool) (s : string) : string * string :=
  match s with
  | EmptyString => (EmptyString, EmptyString)
  | String c s' =>
      if p c then (String c (fst (span p s')), snd (span p s'))
      else (EmptyString, s)
  end.

(** What [variable_re] finds at the head of [s]. *)
Definition variable_match (s : string) : option result :=
  match s with
  | String c s1 =>
      if Ascii.eqb "%" c then
        match fst (span is_ident_char s1), snd (span is_ident_char s1) with
        | String a id, String c2 _ =>
            if Ascii.eqb "%" c2
            then Some {| matched := "%" ++ String a id ++ "%"; groups := [String a id] |}
            else None
        | _, _ => None
        end
      else None
  | EmptyString => None
  end.


(** ** Host resolution, as the specification words it *)

(** The caller host, when one is given: defined and not empty. *)
Definition caller_given (host : option string) : option string :=
  match host with
  | Some h => if String.eqb h "" then None else Some h
  | None => None
  end.

(** With a caller host: ["@"] becomes the caller host, and anything but
    the literal ["%host%"] gets ["."] and the caller host appended. *)
Definition concat_phase (caller : option string) (resolved : string) : string :=
  match caller with
  | Some h =>
      if String.eqb resolved "@" then h
      else if String.eqb resolved "%host%" then resolved
      else resolved ++ "." ++ h
  | None => resolved
  end.

(** A host still equal to ["%host%"] becomes the caller host, or ["@"]
    when there is none. *)
Definition sentinel_phase (caller : option string) (resolved : string) : string :=
  if String.eqb resolved "%host%" then
    match caller with Some h => h | None => "@" end
  else resolved.

Definition resolved_host {num} `{JsNumber num} (params : Params num)
           (host : option string) (raw : string) : string :=
  sentinel_phase (caller_given host)
    (concat_phase (caller_given host) (replaceVariables raw params)).

(** The forms of a resolved host the invariant lists: the caller host,
    ["@"], something followed by ["."] and the caller host, or an
    unresolved placeholder. *)
Definition stated_host_form (host : option string) (resolved : string) : Prop :=
  host = Some resolved
  \/ resolved = "@"
  \/ (exists x h, host = Some h /\ resolved = x ++ "." ++ h)
  \/ (exists id, is_identifier id /\ resolved = "%" ++ id ++ "%").

(** The forms a resolved host takes: those three, with the substituted
    record host before the dot, and the substituted record host itself
    when no caller host is given. *)
Definition host_form {num} `{JsNumber num} (params : Params num)
           (host : option string) (raw resolved : string) : Prop :=
  caller_given host = Some resolved
  \/ resolved = "@"
  \/ (exists h, caller_given host = Some h
                /\ resolved = replaceVariables raw params ++ "." ++ h)
  \/ (caller_given host = None /\ resolved = replaceVariables raw params).

(** A template that only carries records. *)
Definition template_of {num} (records : list (TemplateRecord.t num)) : Template.t num :=
  {| Template.providerId := "example-provider";
     Template.serviceId := "example-service";
     Template.name := None;
     Template.description := None;
     Template.version := None;
     Template.hostRequired := None;
     Template.parameters := None;
     Template.records := records;
     Template.logoUrl := None;
     Template.syncSupported := None;
     Template.asyncSupported := None |}.

Definition record_of (type : RecordType) (host : string) (pointsTo : option string)
  : TemplateRecord.t Z :=
  {| TemplateRecord.type := type;
     TemplateRecord.host := host;
     TemplateRecord.pointsTo := pointsTo;
     TemplateRecord.ttl := None;
     TemplateRecord.priority := None;
     TemplateRecord.weight := None;
     TemplateRecord.port := None |}.

(** ** Validation, as the specification words it *)

Definition declared {num} (template : Template.t num) : list (TemplateParameter.t num) :=
  match Template.parameters template with
  | Some ps => ps
  | None => []
  end.

Definition is_key {num} (name : string) (params : Params num) : bool :=
  existsb (String.eqb name) (keys params).

(** [required == true] and the name is no key of the map. *)
Definition required_and_absent {num} (params : Params num)
           (p : TemplateParameter.t num) : bool :=
  match TemplateParameter.required p with
  | Some true => negb (is_key (TemplateParameter.name p) params)
  | _ => false
  end.

(** ** Validation, as the code does it *)

(** [required == true] and the name is neither a key of the map nor the
    name of a member of [Object.prototype]. *)
Definition required_and_undefined {num} (params : Params num)
           (p : TemplateParameter.t num) : bool :=
  match TemplateParameter.required p with
  | Some true =>
      negb (is_key (TemplateParameter.name p) params)
      && negb (is_inherited (TemplateParameter.name p))
  | _ => false
  end.

(** A template whose only parameter is required and called [name]. *)
Definition requires {num} (name : string) : Template.t num :=
  {| Template.providerId := "example-provider";
     Template.serviceId := "example-service";
     Template.name := None;
     Template.description := None;
     Template.version := None;
     Template.hostRequired := None;
     Template.parameters :=
       Some [ {| TemplateParameter.name := name;
                 TemplateParameter.dataType := None;
                 TemplateParameter.required := Some true;
                 TemplateParameter.defaultValue := None;
                 TemplateParameter.description := None;
                 TemplateParameter.hidden := None |} ];
     Template.records := [];
     Template.logoUrl := None;
     Template.syncSupported := None;
     Template.asyncSupported := None |}.

(** ** Hostname splitting, as the specification words it *)

Definition labels (hostname : string) : list string := split hostname ".".

Definition last_labels (n : nat) (l : list string) : list string :=
  skipn (List.length l - n) l.

Definition leading_labels (n : nat) (l : list string) : list string :=
  firstn (List.length l - n) l.

Definition dotted (l : list string) : string := String.concat "." l.

Definition is_lower (c : ascii) : bool := in_ranges c [("a", "z")]%char.

Definition sld_words : list string := ["co"; "com"; "net"; "org"; "gov"; "edu"].

(** The text is one of the six words, a dot and two lower-case letters:
    it matches [(co|com|net|org|gov|edu)\.[a-z]{2}]. *)
Definition sld_pattern (s : string) : Prop :=
  exists w c1 c2,
    In w sld_words /\ is_lower c1 = true /\ is_lower c2 = true
    /\ s = w ++ "." ++ String c1 (String c2 "").


(** [strip w s]: what follows [w] at the head of [s]. *)
Fixpoint strip (w s : string) : option string :=
  match w with
  | EmptyString => Some s
  | String c w' =>
      match s with
      | String a s' => if Ascii.eqb c a then strip w' s' else None
      | EmptyString => None
      end
  end.

(** [\.[a-z]{2}$], what follows the group in [sld_re]. *)
Definition sld_tail : regex :=
  Seq (Chr ".") (Seq (Times 2 (Cls [("a", "z")]%char)) Eol).

(** ** URL construction, as the specification words it *)

(** An optional string that is present: defined and not empty. *)
Definition present (o : option string) : option string := caller_given o.

(** A query parameter that appears only if its value is present. *)
Definition field (name : string) (value : option string) : list (string * string) :=
  match present value with
  | Some v => [(name, v)]
  | None => []
  end.

(** *** The query string, as the URL standard words it *)

(** The bytes the [application/x-www-form-urlencoded] serializer leaves
    as they are: ASCII digits and letters, [*], [-], [.] and [_]. *)
Definition form_plain (c : ascii) : bool :=
  let n := nat_of_ascii c in
  (((48 <=? n) && (n <=? 57)) || ((65 <=? n) && (n <=? 90)) || ((97 <=? n) && (n <=? 122))
   || (n =? 42) || (n =? 45) || (n =? 46) || (n =? 95))%nat.

(** The upper-case hexadecimal digit of a number below 16. *)
Definition upper_hex (n : nat) : ascii :=
  ascii_of_nat (if (n <? 10)%nat then 48 + n else 55 + n).

(** A byte of a name or value in the query: itself when it is plain, [+]
    for a space, and otherwise [%] before the byte's two hexadecimal
    digits. *)
Definition form_byte (c : ascii) : string :=
  if form_plain c then String c ""
  else if (nat_of_ascii c =? 32)%nat then "+"
  else String "%" (String (upper_hex (nat_of_ascii c / 16))
                     (String (upper_hex (nat_of_ascii c mod 16)) "")).

Fixpoint percent_encoded (s : string) : string :=
  match s with
  | EmptyString => ""
  | String c s' => form_byte c ++ percent_encoded s'
  end.

(** [name=value] for every pair, in order, with [&] between the pairs. *)
Fixpoint query_string (entries : list (string * string)) : string :=
  match entries with
  | [] => ""
  | [(name, value)] => percent_encoded name ++ "=" ++ percent_encoded value
  | (name, value) :: rest =>
      percent_encoded name ++ "=" ++ percent_encoded value ++ "&" ++ query_string rest
  end.

(** Options whose values need escaping. *)
Definition escapedOptions : DomainConnectOptions.t Z :=
  {| DomainConnectOptions.domain := "example.com";
     DomainConnectOptions.providerId := "test-provider";
     DomainConnectOptions.serviceId := "test-service";
     DomainConnectOptions.params :=
       [("txt", SString "v=spf1 include:_spf.example.com ~all");
        ("weight", SNumber 10%Z); ("proxied", SBoolean false)];
     DomainConnectOptions.host := Some "";
     DomainConnectOptions.redirectUri := Some "https://example.com/done?step=2&ok=1";
     DomainConnectOptions.state := None;
     DomainConnectOptions.forcePermission := Some false |}.

Section UrlSpec.

Context {num : Type} `{JsNumber num}.

(** Every entry of the parameter map, the value in its string form. *)
Definition entries_of (params : Params num) : list (string * string) :=
  map (fun kv => (fst kv, ToString (snd kv))) params.

Definition apply_path (base : string) (options : DomainConnectOptions.t num) : string :=
  base ++ "/v2/domainTemplates/providers/" ++ DomainConnectOptions.providerId options
       ++ "/services/" ++ DomainConnectOptions.serviceId options ++ "/apply".

Definition sync_query (options : DomainConnectOptions.t num) : list (string * string) :=
  ([("domain", DomainConnectOptions.domain options)]
   ++ field "host" (DomainConnectOptions.host options)
   ++ entries_of (DomainConnectOptions.params options))%list.

Definition async_query (options : DomainConnectOptions.t num) : list (string * string) :=
  ([("domain", DomainConnectOptions.domain options)]
   ++ field "host" (DomainConnectOptions.host options)
   ++ field "redirect_uri" (DomainConnectOptions.redirectUri options)
   ++ field "state" (DomainConnectOptions.state options)
   ++ (if truthy_bool (DomainConnectOptions.forcePermission options)
       then [("force", "true")] else [])
   ++ entries_of (DomainConnectOptions.params options))%list.

End UrlSpec.

(** ** Discovery, as the specification words it *)

(** A fetch succeeds when it answers with status 200 and a body. *)
Definition successful (answer : settled) : option DomainConnectSettings.t :=
  match answer with
  | Fulfilled response =>
      if (status response =? 200)%Z then data response else None
  | Rejected _ => None
  end.

Definition primary_url (domain : string) : string :=
  "https://_domainconnect." ++ domain ++ "/v2/domainTemplates/providers".

Definition fallback_url (domain : string) : string :=
  "https://" ++ domain ++ "/.well-known/domain-connect.json".

(** ** Settings and options of the library's own client tests *)

Definition mockSettings : DomainConnectSettings.t :=
  {| DomainConnectSettings.urlAPI := "https://api.domainconnect.example.com";
     DomainConnectSettings.syncEnabled := Some true;
     DomainConnectSettings.asyncEnabled := Some true;
     DomainConnectSettings.urlAsyncAPI := Some "https://async.domainconnect.example.com" |}.

Definition settingsWithoutSync : DomainConnectSettings.t :=
  {| DomainConnectSettings.urlAPI := "https://api.domainconnect.example.com";
     DomainConnectSettings.syncEnabled := Some false;
     DomainConnectSettings.asyncEnabled := Some true;
     DomainConnectSettings.urlAsyncAPI := Some "https://async.domainconnect.example.com" |}.

Definition settingsWithoutAsync : DomainConnectSettings.t :=
  {| DomainConnectSettings.urlAPI := "https://api.domainconnect.example.com";
     DomainConnectSettings.syncEnabled := Some true;
     DomainConnectSettings.asyncEnabled := Some false;
     DomainConnectSettings.urlAsyncAPI := Some "https://async.domainconnect.example.com" |}.

Definition mockOptions : DomainConnectOptions.t Z :=
  {| DomainConnectOptions.domain := "example.com";
     DomainConnectOptions.providerId := "test-provider";
     DomainConnectOptions.serviceId := "test-service";
     DomainConnectOptions.params :=
       [("ip", SString "192.0.2.1"); ("subdomain", SString "www")];
     DomainConnectOptions.host := Some "blog";
     DomainConnectOptions.redirectUri := Some "https://example.com/callback";
     DomainConnectOptions.state := Some "random-state";
     DomainConnectOptions.forcePermission := Some true |}.

(** A network without connectivity. *)
Definition offline : network := fun _ _ => Rejected (ErrorObject "Network Error").

(** ** Template and parameters of the library's own utility tests *)

Definition test_template : Template.t Z :=
  template_of [ record_of CNAME "%subdomain%" (Some "%target%");
                record_of A "@" (Some "%ip%");
                record_of TXT "%host%" (Some "verification=%code%") ].

Definition test_params : Params Z :=
  [ ("subdomain", SString "www"); ("target", SString "example.cdn.com");
    ("ip", SString "192.0.2.1"); ("code", SString "abc123") ].

(** The primary discovery path fails, the fallback answers. *)
Definition fallback_only (body : DomainConnectSettings.t) : network :=
  fun history _ =>
    match history with
    | [] => Rejected (ErrorObject "DNS lookup failed")
    | _ => Fulfilled {| status := 200; data := Some body |}
    end.

(** A network that answers every request with status 200 and no body. *)
Definition answers_200 : network :=
  fun _ _ => Fulfilled {| status := 200; data := None |}.

(** A network on which every request fails with [new Error('API error')]. *)
Definition api_error : network := fun _ _ => Rejected (ErrorObject "API error").

(** ** Auxiliary definitions of the further properties *)

(** No character of the text is [%]. *)
Definition no_percent (s : string) : bool :=
  all_chars (fun c => negb (Ascii.eqb c "%")) s.

(** No character of the label is a dot. *)
Definition dot_free (s : string) : bool :=
  all_chars (fun c => negb (Ascii.eqb c ".")) s.

(** The characters a serialized query is made of: the unreserved ones,
    [+] for a space and [%] before two hexadecimal digits. *)
Definition query_safe (c : ascii) : bool :=
  URLSearchParams.unreserved c || Ascii.eqb c "+" || Ascii.eqb c "%".

(** How often a character occurs in a text. *)
Fixpoint count_char (c : ascii) (s : string) : nat :=
  match s with
  | EmptyString => 0
  | String a s' => (if Ascii.eqb a c then 1 else 0) + count_char c s'
  end.

Definition hex_value (c : ascii) : nat :=
  if in_ranges c [("0", "9")]%char then nat_of_ascii c - 48
  else nat_of_ascii c - 55.

(** Reading a serialized name or value back. *)
Fixpoint decode (s : string) : string :=
  match s with
  | EmptyString => EmptyString
  | String c r =>
      if Ascii.eqb c "%" then
        match r with
        | String h (String l r') =>
            String (ascii_of_nat (16 * hex_value h + hex_value l)) (decode r')
        | _ => EmptyString
        end
      else if Ascii.eqb c "+" then String " " (decode r)
      else String c (decode r)
  end.

(** The text before the first [=] and the text after it. *)
Fixpoint break_eq (s : string) : string * string :=
  match s with
  | EmptyString => (EmptyString, EmptyString)
  | String c r =>
      if Ascii.eqb c "=" then (EmptyString, r)
      else (String c (fst (break_eq r)), snd (break_eq r))
  end.

(** Reading a serialized query back into its pairs. *)
Definition parse_query (s : string) : list (string * string) :=
  if String.eqb s "" then []
  else map (fun pair => (decode (fst (break_eq pair)), decode (snd (break_eq pair))))
           (split s "&").

(** Options of a plain request: no redirect, no state, no forced prompt. *)
Definition plainOptions : DomainConnectOptions.t Z :=
  {| DomainConnectOptions.domain := "example.com";
     DomainConnectOptions.providerId := "test-provider";
     DomainConnectOptions.serviceId := "test-service";
     DomainConnectOptions.params := [("ip", SString "192.0.2.1")];
     DomainConnectOptions.host := Some "blog";
     DomainConnectOptions.redirectUri := None;
     DomainConnectOptions.state := None;
     DomainConnectOptions.forcePermission := None |}.

Definition success_result : DomainConnectResult.t :=
  {| DomainConnectResult.success := true;
     DomainConnectResult.redirectUrl := None;
     DomainConnectResult.error := None;
     DomainConnectResult.asyncStatusUrl := None |}.

(** How the apply and status wrappers read a fulfilled response;
    [pending] tells whether 202 means "still in progress". *)
Definition read_status (pending : bool) (response : AxiosResponse) : DomainConnectResult.t :=
  if (status response =? 200)%Z then success_result
  else if pending && (status response =? 202)%Z then failure "Operation still in progress"
  else failure ("Unexpected status code: " ++ number_toString (status response)).

(** An override object without any property. *)
Definition noOverrides : PartialSettings.t :=
  {| PartialSettings.urlAPI := None;
     PartialSettings.syncEnabled := None;
     PartialSettings.asyncEnabled := None;
     PartialSettings.urlAsyncAPI := None |}.

(** [{ asyncEnabled: undefined }] *)
Definition asyncUndefined : PartialSettings.t :=
  {| PartialSettings.urlAPI := None;
     PartialSettings.syncEnabled := None;
     PartialSettings.asyncEnabled := Some None;
     PartialSettings.urlAsyncAPI := None |}.

(** The test [identifyDnsProvider] applies to a directory entry: one of
    its patterns, lower-cased, occurs in one of the lower-cased
    nameservers. *)
Definition entry_matches (lowerNameservers : list string) (entry : ProviderEntry) : bool :=
  existsb (fun domain =>
             existsb (fun ns => includes ns (toLowerCase domain)) lowerNameservers)
          (domains entry).

(** The options of the client tests without the fields of the
    asynchronous flow. *)
Definition syncOptions : DomainConnectOptions.t Z :=
  {| DomainConnectOptions.domain := "example.com";
     DomainConnectOptions.providerId := "test-provider";
     DomainConnectOptions.serviceId := "test-service";
     DomainConnectOptions.params :=
       [("ip", SString "192.0.2.1"); ("subdomain", SString "www")];
     DomainConnectOptions.host := Some "blog";
     DomainConnectOptions.redirectUri := None;
     DomainConnectOptions.state := None;
     DomainConnectOptions.forcePermission := None |}.

(** [{ ...options, host, params }] *)
Definition with_host_params {num} (options : DomainConnectOptions.t num)
           (host : option string) (params : Params num) : DomainConnectOptions.t num :=
  {| DomainConnectOptions.domain := DomainConnectOptions.domain options;
     DomainConnectOptions.providerId := DomainConnectOptions.providerId options;
     DomainConnectOptions.serviceId := DomainConnectOptions.serviceId options;
     DomainConnectOptions.params := params;
     DomainConnectOptions.host := host;
     DomainConnectOptions.redirectUri := DomainConnectOptions.redirectUri options;
     DomainConnectOptions.state := DomainConnectOptions.state options;
     DomainConnectOptions.forcePermission := DomainConnectOptions.forcePermission options |}.

(** A resolver that fails. *)
Definition resolver_down : string -> list string + thrown :=
  fun _ => inr (ErrorObject "DNS resolution failed").
(** * Proofs *)

(** ** Strings *)

Lemma append_nil_r (s : string) : s ++ "" = s.
Proof. induction s as [|c s IH]; simpl; [reflexivity | now rewrite IH]. Qed.

Lemma append_assoc (a b c : string) : (a ++ b) ++ c = a ++ (b ++ c).
Proof. induction a as [|x a IH]; simpl; [reflexivity | now rewrite IH]. Qed.

Lemma length_append (a b : string) :
  String.length (a ++ b) = (String.length a + String.length b)%nat.
Proof. induction a as [|x a IH]; simpl; [reflexivity | now rewrite IH]. Qed.

Lemma substring_prefix (a b : string) :
  substring 0 (String.length a) (a ++ b) = a.
Proof.
  induction a as [|x a IH]; simpl.
  - destruct b; reflexivity.
  - now rewrite IH.
Qed.

(** ** Parameter maps *)

Lemma own_Some_In {num} (params : Params num) key v :
  own params key = Some v -> In key (keys params).
Proof.
  induction params as [|[k w] ps IH]; simpl; [discriminate|].
  destruct (String.eqb_spec k key) as [->|_]; auto.
Qed.

Lemma own_None_not_In {num} (params : Params num) key :
  own params key = None <-> ~ In key (keys params).
Proof.
  induction params as [|[k w] ps IH]; simpl.
  - tauto.
  - destruct (String.eqb_spec k key) as [->|Hne].
    + split; [discriminate | intros Hn; exfalso; apply Hn; now left].
    + rewrite IH. tauto.
Qed.

(** ** Members of [Object.prototype] *)

Lemma prototype_member_In key member :
  prototype_member key = Some member <-> In (key, member) Object_prototype.
Proof.
  unfold prototype_member. split.
  - destruct (find _ Object_prototype) as [[name m]|] eqn:Hfind; [|discriminate].
    cbn [option_map snd]. intros Hm. injection Hm as <-.
    apply find_some in Hfind as [Hin Heq]. cbn [fst] in Heq.
    apply String.eqb_eq in Heq. now subst.
  - unfold Object_prototype. cbn [In].
    intros Hin.
    repeat (destruct Hin as [Hin|Hin]; [injection Hin as <- <-; reflexivity|]).
    destruct Hin.
Qed.

Lemma prototype_member_inherited key :
  is_inherited key = match prototype_member key with Some _ => true | None => false end.
Proof.
  unfold is_inherited, prototype_member, Object_prototype.
  cbn [map fst existsb find].
  rewrite !(String.eqb_sym key).
  repeat match goal with
         | |- context [String.eqb ?name key] => destruct (String.eqb name key); [reflexivity|]
         end.
  reflexivity.
Qed.

Lemma is_inherited_In name : is_inherited name = true <-> In name (map fst Object_prototype).
Proof.
  unfold is_inherited. rewrite existsb_exists. split.
  - intros (member & Hin & Heq). apply String.eqb_eq in Heq. now subst.
  - intros Hin. exists name. split; [exact Hin | apply String.eqb_refl].
Qed.

Lemma get_own {num} (params : Params num) key v :
  own params key = Some v -> get params key = Some (Own v).
Proof. unfold get. now intros ->. Qed.

Lemma get_None {num} (params : Params num) key :
  get params key = None <-> ~ In key (keys params) /\ is_inherited key = false.
Proof.
  unfold get. rewrite prototype_member_inherited, <- own_None_not_In.
  destruct (own params key); [split; [discriminate | intros [? _]; discriminate]|].
  destruct (prototype_member key); cbn [option_map]; split;
    try discriminate; try tauto.
  intros [_ ?]; discriminate.
Qed.

(** ** The matcher on [[...]+] *)


Lemma span_append p s : fst (span p s) ++ snd (span p s) = s.
Proof.
  induction s as [|c s IH]; simpl; [reflexivity|].
  destruct (p c); simpl; [now rewrite IH | reflexivity].
Qed.

Lemma span_nonempty_head p s :
  fst (span p s) <> "" -> exists a s', s = String a s' /\ p a = true.
Proof.
  destruct s as [|a s]; simpl; [congruence|].
  destruct (p a) eqn:E; simpl; [eauto | congruence].
Qed.

Lemma span_all p s : all_chars p (fst (span p s)) = true.
Proof.
  induction s as [|a s IH]; simpl; [reflexivity|].
  destruct (p a) eqn:E; simpl; [now rewrite E | reflexivity].
Qed.

Lemma span_exact p a c r :
  all_chars p a = true -> p c = false -> span p (a ++ String c r) = (a, String c r).
Proof.
  intros Ha Hc. induction a as [|x a IH]; simpl in *.
  - now rewrite Hc.
  - apply andb_true_iff in Ha as [Hx Ha]. rewrite Hx, (IH Ha). reflexivity.
Qed.

Lemma plus_cls_greedy ranges (k : cont) :
  (forall st a s', rest st = String a s' -> in_ranges a ranges = true -> k st = None) ->
  forall fuel st,
    (String.length (rest st) <= fuel)%nat ->
    plus_loop (run (Cls ranges)) k fuel st =
    match fst (span (fun a => in_ranges a ranges) (rest st)) with
    | EmptyString => None
    | pre => k {| index := index st + String.length pre;
                  rest := snd (span (fun a => in_ranges a ranges) (rest st));
                  captures := captures st |}
    end.
Proof.
  intros Hk. induction fuel as [|fuel IH]; intros [i s caps] Hlen; simpl in *.
  - destruct s; simpl in *; [reflexivity | lia].
  - unfold step_char; simpl. destruct s as [|a s]; simpl in *; [reflexivity|].
    destruct (in_ranges a ranges) eqn:Ea; simpl; [|reflexivity].
    rewrite IH by (simpl; lia). simpl.
    destruct (fst (span (fun a0 => in_ranges a0 ranges) s)) as [|b pre] eqn:Epre.
    + assert (Hs : snd (span (fun a0 => in_ranges a0 ranges) s) = s).
      { rewrite <- (span_append (fun a0 => in_ranges a0 ranges) s) at 2.
        now rewrite Epre. }
      rewrite Hs. simpl. now rewrite Nat.add_1_r.
    + simpl. replace (i + S (S (String.length pre)))%nat
        with (S (i + S (String.length pre)))%nat by lia.
      destruct (k _) eqn:Ek; [reflexivity|].
      destruct (span_nonempty_head (fun a0 => in_ranges a0 ranges) s)
        as (a' & s' & -> & Ha'); [rewrite Epre; discriminate|].
      eapply Hk; [reflexivity | exact Ha'].
Qed.

(** ** Unfolding the matcher *)

Lemma run_Seq r1 r2 st k : run (Seq r1 r2) st k = run r1 st (fun st' => run r2 st' k).
Proof. reflexivity. Qed.
Lemma run_Chr c st k : run (Chr c) st k = step_char (Ascii.eqb c) st k.
Proof. reflexivity. Qed.
Lemma run_Plus r st k : run (Plus r) st k = plus_loop (run r) k (String.length (rest st)) st.
Proof. reflexivity. Qed.
Lemma run_Group r st k :
  run (Group r) st k =
  run r st (fun st' =>
    k {| index := index st'; rest := rest st';
         captures := captures st ++ [substring 0 (index st' - index st) (rest st)] |}).
Proof. reflexivity. Qed.

Lemma ident_not_percent a : is_ident_char a = true -> Ascii.eqb "%" a = false.
Proof.
  intros Ha. destruct (Ascii.eqb_spec "%"%char a) as [<-|]; [|reflexivity].
  vm_compute in Ha. discriminate.
Qed.


Lemma exec_at_variable pos s : exec_at variable_re pos s = variable_match s.
Proof.
  unfold exec_at, variable_re, variable_match.
  rewrite run_Seq, run_Chr. unfold step_char at 1. cbn [rest index captures].
  destruct s as [|c s1]; [reflexivity|].
  destruct (Ascii.eqb_spec "%"%char c) as [<-|Hc]; [|reflexivity].
  cbn [rest index captures].
  rewrite run_Seq, run_Group, run_Plus.
  rewrite plus_cls_greedy.
  - cbn [rest index captures].
    change (fun a => in_ranges a ident_ranges) with is_ident_char.
    pose proof (span_append is_ident_char s1) as Happ.
    destruct (fst (span is_ident_char s1)) as [|a id] eqn:Eid; [reflexivity|].
    rewrite run_Chr. unfold step_char. cbn [rest index captures].
    destruct (snd (span is_ident_char s1)) as [|c2 post] eqn:Epost; [reflexivity|].
    destruct (Ascii.eqb_spec "%"%char c2) as [<-|Hc2]; [|reflexivity].
    cbn [rest index captures].
    f_equal. f_equal.
    + rewrite <- Happ.
      replace (S (S pos + String.length (String a id)) - pos)%nat
        with (String.length ("%" ++ String a id ++ "%")).
      * change (String "%" (String a id ++ String "%" post))
          with ("%" ++ (String a id ++ String "%" post)).
        replace ("%" ++ (String a id ++ String "%" post))
          with (("%" ++ String a id ++ "%") ++ post).
        -- apply substring_prefix.
        -- simpl. f_equal. f_equal. rewrite append_assoc. reflexivity.
      * cbn [append String.length]. rewrite length_append. cbn [String.length]. lia.
    + rewrite <- Happ.
      replace (S pos + String.length (String a id) - S pos)%nat
        with (String.length (String a id)) by (cbn [String.length]; lia).
      rewrite substring_prefix. reflexivity.
  - intros st a s' Hrest Ha. rewrite run_Chr. unfold step_char. cbn [rest index captures].
    rewrite Hrest. now rewrite (ident_not_percent a Ha).
  - simpl. lia.
Qed.

Lemma variable_match_placeholder id post :
  is_identifier id ->
  variable_match ("%" ++ id ++ "%" ++ post)
  = Some {| matched := "%" ++ id ++ "%"; groups := [id] |}.
Proof.
  intros [Hne Hid]. unfold variable_match. cbn [append].
  rewrite Ascii.eqb_refl.
  rewrite (span_exact is_ident_char id "%" post Hid) by reflexivity.
  cbn [fst snd]. destruct id as [|a id]; [congruence|].
  rewrite Ascii.eqb_refl. reflexivity.
Qed.

Lemma variable_match_inv s m :
  variable_match s = Some m -> placeholder_at_head s.
Proof.
  unfold variable_match. destruct s as [|c s1]; [discriminate|].
  destruct (Ascii.eqb_spec "%"%char c) as [<-|]; [|discriminate].
  pose proof (span_append is_ident_char s1) as Happ.
  pose proof (span_all is_ident_char s1) as Hall.
  destruct (fst (span is_ident_char s1)) as [|a id]; [discriminate|].
  destruct (snd (span is_ident_char s1)) as [|c2 post]; [discriminate|].
  destruct (Ascii.eqb_spec "%"%char c2) as [<-|]; [|discriminate].
  intros _. exists (String a id), post. split.
  - split; [discriminate | exact Hall].
  - rewrite <- Happ. reflexivity.
Qed.

Lemma replace_from_0 re fn pos s :
  replace_from re fn pos s 0 =
  match exec_at re pos s with
  | Some m =>
      fn (matched m) (groups m) ++
      match String.length (matched m), s with
      | _, EmptyString => EmptyString
      | O, String c s' => String c (replace_from re fn (S pos) s' 0)
      | S n, String _ s' => replace_from re fn (S pos) s' n
      end
  | None =>
      match s with
      | String c s' => String c (replace_from re fn (S pos) s' 0)
      | EmptyString => EmptyString
      end
  end.
Proof. destruct s; reflexivity. Qed.

Lemma replace_from_skip re fn pre post : forall pos,
  replace_from re fn pos (pre ++ post) (String.length pre)
  = replace_from re fn (pos + String.length pre) post 0.
Proof.
  induction pre as [|c pre IH]; intros pos; cbn [append String.length].
  - now rewrite Nat.add_0_r.
  - cbn [replace_from]. rewrite IH. f_equal. lia.
Qed.

Lemma replace_variable_pos fn s : forall pos skip,
  replace_from variable_re fn pos s skip = replace_from variable_re fn 0 s skip.
Proof.
  induction s as [|c s IH]; intros pos [|skip].
  - rewrite (replace_from_0 _ _ pos), (replace_from_0 _ _ 0), !exec_at_variable.
    reflexivity.
  - reflexivity.
  - rewrite (replace_from_0 _ _ pos), (replace_from_0 _ _ 0), !exec_at_variable.
    destruct (variable_match (String c s)) as [m|].
    + destruct (String.length (matched m)); now rewrite (IH (S pos)), (IH 1%nat).
    + now rewrite (IH (S pos)), (IH 1%nat).
  - cbn [replace_from]. now rewrite (IH (S pos)), (IH 1%nat).
Qed.

Section Subst.
Context {num : Type} `{JsNumber num}.
Variable params : Params num.

Lemma replaceVariables_empty : replaceVariables "" params = "".
Proof. reflexivity. Qed.

Lemma replaceVariables_placeholder id post :
  is_identifier id ->
  replaceVariables ("%" ++ id ++ "%" ++ post) params
  = match get params id with
    | Some p => property_toString p
    | None => "%" ++ id ++ "%"
    end ++ replaceVariables post params.
Proof.
  intros Hid. unfold replaceVariables, String_replace_all.
  rewrite replace_from_0, exec_at_variable, (variable_match_placeholder post Hid).
  cbn [matched groups nth]. f_equal.
  cbn [append String.length].
  change (id ++ String "%" post) with (id ++ "%" ++ post).
  rewrite <- append_assoc, replace_from_skip. apply replace_variable_pos.
Qed.

Lemma replaceVariables_copy c post :
  ~ placeholder_at_head (String c post) ->
  replaceVariables (String c post) params = String c (replaceVariables post params).
Proof.
  intros Hno. unfold replaceVariables, String_replace_all.
  rewrite replace_from_0, exec_at_variable.
  destruct (variable_match (String c post)) as [m|] eqn:Em.
  - exfalso. apply Hno. eapply variable_match_inv; eauto.
  - f_equal. apply replace_variable_pos.
Qed.
End Subst.

Lemma placeholder_append id out :
  ("%" ++ id ++ "%") ++ out = "%" ++ id ++ "%" ++ out.
Proof. cbn [append]. f_equal. apply append_assoc. Qed.

Lemma replaces_iff {num} `{JsNumber num} (params : Params num) text out :
  replaces params text out <-> replaceVariables text params = out.
Proof.
  split.
  - induction 1 as [|id v post out Hid Hown _ IH|id member post out Hid Hnin Hmem _ IH
                    |id post out Hid Hnin Hnot _ IH|c post out Hno _ IH].
    + reflexivity.
    + rewrite (replaceVariables_placeholder params post Hid), (get_own _ _ Hown), IH.
      reflexivity.
    + apply own_None_not_In in Hnin. apply prototype_member_In in Hmem.
      rewrite (replaceVariables_placeholder params post Hid). unfold get.
      rewrite Hnin, Hmem, IH. reflexivity.
    + assert (Hget : get params id = None) by now apply get_None.
      rewrite (replaceVariables_placeholder params post Hid), Hget, IH.
      now rewrite placeholder_append.
    + rewrite (replaceVariables_copy params Hno), IH. reflexivity.
  - intros <-.
    remember (String.length text) as n eqn:Hn.
    revert text Hn. induction n as [n IH] using lt_wf_ind. intros text Hn.
    destruct text as [|c post].
    + constructor.
    + destruct (variable_match (String c post)) as [m|] eqn:Em.
      * destruct (variable_match_inv _ Em) as (id & post' & Hid & Heq).
        rewrite Heq, (replaceVariables_placeholder params post' Hid).
        assert (Hlt : (String.length post' < n)%nat).
        { subst n. rewrite Heq. cbn [append String.length].
          rewrite !length_append. cbn [String.length]. lia. }
        destruct (get params id) as [p|] eqn:Hget.
        -- unfold get in Hget. destruct (own params id) as [v|] eqn:Hown.
           ++ injection Hget as <-. apply replaces_own; eauto.
           ++ destruct (prototype_member id) as [member|] eqn:Hmem; [|discriminate].
              injection Hget as <-. cbn [property_toString].
              apply replaces_inherited; eauto.
              ** now apply own_None_not_In.
              ** now apply prototype_member_In.
        -- rewrite placeholder_append. apply get_None in Hget as [Hnin Hnot].
           apply replaces_keep; eauto.
      * assert (Hno : ~ placeholder_at_head (String c post)).
        { intros (id & post' & Hid & Heq).
          rewrite Heq, (variable_match_placeholder post' Hid) in Em. discriminate. }
        rewrite (replaceVariables_copy params Hno).
        apply replaces_copy; [exact Hno|].
        apply (IH (String.length post)); [subst n; simpl; lia | reflexivity].
Qed.

(** With the empty map the pass the claim describes copies the text. *)
Lemma substitutes_empty {num} `{JsNumber num} text out :
  substitutes ([] : Params num) text out -> out = text.
Proof.
  induction 1 as [|id v post out Hid Hin Hown _ IH|id post out Hid Hnin _ IH
                  |c post out Hno _ IH].
  - reflexivity.
  - destruct Hin.
  - now rewrite IH.
  - now rewrite IH.
Qed.

(** ** Record resolution *)

Section RecordProofs.

Context {num : Type} `{JsNumber num}.
Variable params : Params num.

Lemma truthy_string_caller host :
  truthy_string host = match caller_given host with Some _ => true | None => false end.
Proof. destruct host as [h|]; simpl; [destruct (String.eqb h ""); reflexivity | reflexivity]. Qed.

Lemma caller_given_Some host h : caller_given host = Some h -> host = Some h.
Proof.
  destruct host as [h'|]; simpl; [|discriminate].
  destruct (String.eqb h' ""); [discriminate | auto].
Qed.

Lemma dotted_not_sentinel x h : String.eqb (x ++ "." ++ h) "%host%" = false.
Proof.
  apply String.eqb_neq.
  destruct x as [|a [|b [|c [|d [|e [|f [|g x]]]]]]]; simpl; congruence.
Qed.

Lemma resolveRecord_host host record :
  TemplateRecord.host (resolveRecord params host record)
  = resolved_host params host (TemplateRecord.host record).
Proof.
  unfold resolveRecord, resolved_host, sentinel_phase, concat_phase.
  rewrite (truthy_string_caller host).
  destruct (caller_given host) as [h|] eqn:Ecaller.
  - rewrite (caller_given_Some _ Ecaller). cbn [TemplateRecord.host TemplateRecord.set_host].
    destruct (String.eqb (replaceVariables (TemplateRecord.host record) params) "@") eqn:Eat.
    + cbn [TemplateRecord.host TemplateRecord.set_host negb andb].
      destruct (String.eqb h "%host%") eqn:Eh;
        cbn [TemplateRecord.host TemplateRecord.set_host negb andb];
        destruct (truthy_string (TemplateRecord.pointsTo _)); reflexivity.
    + destruct (String.eqb (replaceVariables (TemplateRecord.host record) params) "%host%")
        eqn:Esent; cbn [TemplateRecord.host TemplateRecord.set_host negb andb].
      * rewrite Esent. cbn [andb TemplateRecord.host TemplateRecord.set_host].
        destruct (truthy_string (TemplateRecord.pointsTo _)); reflexivity.
      * rewrite dotted_not_sentinel. cbn [andb TemplateRecord.host TemplateRecord.set_host].
        destruct (truthy_string (TemplateRecord.pointsTo _)); reflexivity.
  - cbn [TemplateRecord.host TemplateRecord.set_host negb andb].
    destruct (String.eqb (replaceVariables (TemplateRecord.host record) params) "%host%")
      eqn:Esent; cbn [TemplateRecord.host TemplateRecord.set_host negb andb];
      destruct (truthy_string (TemplateRecord.pointsTo _)); reflexivity.
Qed.

Lemma replaceVariables_sentinel :
  ~ In "host" (keys params) -> replaceVariables "%host%" params = "%host%".
Proof.
  intros Hnot.
  assert (Hget : get params "host" = None) by (apply get_None; split; [exact Hnot | reflexivity]).
  change "%host%" with ("%" ++ "host" ++ "%" ++ "") at 1.
  rewrite replaceVariables_placeholder, Hget; [reflexivity|].
  split; [discriminate | reflexivity].
Qed.

Lemma resolved_host_sentinel host :
  ~ In "host" (keys params) ->
  resolved_host params host "%host%"
  = match caller_given host with Some h => h | None => "@" end.
Proof.
  intros Hnot. unfold resolved_host. rewrite (replaceVariables_sentinel Hnot).
  unfold sentinel_phase, concat_phase.
  destruct (caller_given host) as [h|]; [|reflexivity].
  cbn [String.eqb Ascii.eqb]. simpl. reflexivity.
Qed.

Lemma resolved_host_form host raw :
  host_form params host raw (resolved_host params host raw).
Proof.
  unfold host_form, resolved_host, sentinel_phase, concat_phase.
  destruct (caller_given host) as [h|].
  - destruct (String.eqb (replaceVariables raw params) "@").
    + destruct (String.eqb h "%host%"); auto.
    + destruct (String.eqb (replaceVariables raw params) "%host%") eqn:Esent.
      * rewrite Esent. auto.
      * rewrite dotted_not_sentinel. right; right; left. eauto.
  - destruct (String.eqb (replaceVariables raw params) "%host%"); auto.
Qed.

End RecordProofs.

(** ** Validation *)

Lemma is_key_In {num} (params : Params num) name :
  is_key name params = true <-> In name (keys params).
Proof.
  unfold is_key. rewrite existsb_exists. split.
  - intros (k & Hin & Heq). apply String.eqb_eq in Heq. now subst.
  - intros Hin. exists name. split; [exact Hin | apply String.eqb_refl].
Qed.

Lemma get_None_is_key {num} (params : Params num) name :
  match get params name with None => true | Some _ => false end
  = negb (is_key name params) && negb (is_inherited name).
Proof.
  destruct (get params name) as [p|] eqn:Hget.
  - destruct (is_key name params) eqn:Hkey; [reflexivity|].
    destruct (is_inherited name) eqn:Hinh; [reflexivity|].
    assert (Hnone : get params name = None).
    { apply get_None. split; [|exact Hinh].
      intros Hin. apply is_key_In in Hin. congruence. }
    congruence.
  - apply get_None in Hget as [Hnin ->].
    destruct (is_key name params) eqn:Hkey; [|reflexivity].
    apply is_key_In in Hkey. contradiction.
Qed.

Lemma missing_filter {num} `{JsNumber num} (params : Params num)
      (ps : list (TemplateParameter.t num)) :
  filter (fun param =>
            truthy_bool (TemplateParameter.required param)
            && match get params (TemplateParameter.name param) with
               | None => true
               | Some _ => false
               end) ps
  = filter (required_and_undefined params) ps.
Proof.
  apply filter_ext. intros p. unfold required_and_undefined.
  rewrite get_None_is_key.
  destruct (TemplateParameter.required p) as [[|]|]; reflexivity.
Qed.

Lemma filter_nil_iff {T} (f : T -> bool) (l : list T) :
  filter f l = [] <-> forall x, In x l -> f x = false.
Proof.
  induction l as [|a l IH]; simpl.
  - split; [intros _ x [] | reflexivity].
  - destruct (f a) eqn:Ea.
    + split; [discriminate|]. intros Hall. rewrite (Hall a) in Ea by now left. discriminate.
    + rewrite IH. split.
      * intros Hall x [<-|Hin]; auto.
      * intros Hall x Hin. apply Hall. now right.
Qed.

(** ** Hostname splitting *)

Lemma slice_last {T} (l : list T) (n : nat) :
  (0 < n)%nat -> slice l (- Z.of_nat n) None = skipn (List.length l - n) l.
Proof.
  intros Hn. unfold slice.
  assert (Hneg : (- Z.of_nat n <? 0)%Z = true) by (apply Z.ltb_lt; lia).
  rewrite Hneg.
  replace (Z.to_nat (Z.max (Z.of_nat (List.length l) + - Z.of_nat n) 0))
    with (List.length l - n)%nat by lia.
  apply firstn_all2. rewrite length_skipn. lia.
Qed.

Lemma slice_leading {T} (l : list T) (n : nat) :
  (0 < n)%nat -> slice l 0 (Some (- Z.of_nat n)%Z) = firstn (List.length l - n) l.
Proof.
  intros Hn. unfold slice.
  assert (Hneg : (- Z.of_nat n <? 0)%Z = true) by (apply Z.ltb_lt; lia).
  rewrite Hneg. cbn [Z.ltb Z.compare].
  replace (Z.to_nat (Z.min 0 (Z.of_nat (List.length l)))) with 0%nat by lia.
  cbn [skipn]. f_equal. lia.
Qed.

Lemma strip_append w s r : strip w s = Some r -> s = w ++ r.
Proof.
  revert s. induction w as [|c w IH]; intros s; simpl.
  - intros E; injection E as ->; reflexivity.
  - destruct s as [|a s]; [discriminate|].
    destruct (Ascii.eqb_spec c a) as [->|]; [|discriminate].
    intros E. now rewrite (IH _ E).
Qed.

Lemma run_Lit w : forall st k,
  run (Lit w) st k =
  match strip w (rest st) with
  | Some r => k {| index := index st + String.length w; rest := r;
                   captures := captures st |}
  | None => None
  end.
Proof.
  induction w as [|c w IH]; intros [i s caps] k; cbn [Lit strip rest index captures].
  - cbn [run String.length]. now rewrite Nat.add_0_r.
  - rewrite run_Seq, run_Chr. unfold step_char. cbn [rest index captures].
    destruct s as [|a s]; [reflexivity|].
    destruct (Ascii.eqb c a); [|reflexivity].
    rewrite IH. cbn [rest index captures String.length].
    now rewrite Nat.add_succ_r.
Qed.

Lemma run_Alt_inv r1 r2 st k x :
  run (Alt r1 r2) st k = Some x -> run r1 st k = Some x \/ run r2 st k = Some x.
Proof. cbn [run]. destruct (run r1 st k); auto. Qed.

Lemma sld_tail_inv st x :
  run sld_tail st Some = Some x ->
  exists c1 c2, is_lower c1 = true /\ is_lower c2 = true
                /\ rest st = String "." (String c1 (String c2 "")).
Proof.
  destruct st as [i s caps]. unfold sld_tail. cbn [run times_loop].
  unfold step_char. cbn [rest index captures].
  destruct s as [|a s]; [discriminate|].
  destruct (Ascii.eqb_spec "."%char a) as [<-|]; [|discriminate].
  destruct s as [|c1 s]; [discriminate|].
  destruct (in_ranges c1 [("a", "z")]%char) eqn:E1; [|discriminate].
  destruct s as [|c2 s]; [discriminate|].
  destruct (in_ranges c2 [("a", "z")]%char) eqn:E2; [|discriminate].
  destruct s; [|discriminate].
  intros _. exists c1, c2. auto.
Qed.

Lemma run_Bol st k : run Bol st k = if (index st =? 0)%nat then k st else None.
Proof. reflexivity. Qed.

Lemma exec_at_sld_inv s m : exec_at sld_re 0 s = Some m -> sld_pattern s.
Proof.
  unfold exec_at.
  destruct (run sld_re {| index := 0; rest := s; captures := [] |} Some)
    as [x|] eqn:Erun; [intros _|discriminate].
  unfold sld_re in Erun.
  rewrite run_Seq, run_Bol in Erun. cbn [index Nat.eqb] in Erun.
  rewrite run_Seq, run_Group in Erun.
  match type of Erun with run _ _ ?k = _ => set (K := k) in Erun end.
  assert (Hword : forall w,
             run (Lit w) {| index := 0; rest := s; captures := [] |} K = Some x ->
             In w sld_words -> sld_pattern s).
  { intros w Hw Hin. rewrite run_Lit in Hw. cbn [rest index captures] in Hw.
    destruct (strip w s) as [r|] eqn:Estrip; [|discriminate].
    subst K. cbn beta in Hw.
    apply sld_tail_inv in Hw as (c1 & c2 & H1 & H2 & Hrest). cbn [rest] in Hrest.
    exists w, c1, c2. repeat split; auto.
    rewrite (strip_append _ _ Estrip), Hrest. reflexivity. }
  repeat (apply run_Alt_inv in Erun as [Erun|Erun];
          [eapply Hword; [exact Erun | simpl; tauto]|]).
  eapply Hword; [exact Erun | simpl; tauto].
Qed.

Lemma exec_at_sld s : sld_pattern s -> exists m, exec_at sld_re 0 s = Some m.
Proof.
  intros (w & c1 & c2 & Hin & H1 & H2 & ->). unfold is_lower in H1, H2.
  unfold exec_at, sld_re.
  simpl in Hin.
  destruct Hin as [<-|[<-|[<-|[<-|[<-|[<-|[]]]]]]];
    cbn [run Lit times_loop step_char append rest index captures Nat.eqb Ascii.eqb
         Bool.eqb];
    rewrite ?H1, ?H2; cbn [rest]; eauto.
Qed.

Lemma search_from_Bol r s : forall pos, search_from (Seq Bol r) (S pos) s = None.
Proof.
  induction s as [|c s IH]; intros pos; cbn [search_from]; unfold exec_at;
    rewrite run_Seq; cbn [run index Nat.eqb]; [reflexivity | apply IH].
Qed.

Lemma String_match_sld s :
  match String_match s sld_re with
  | Some _ => sld_pattern s
  | None => ~ sld_pattern s
  end.
Proof.
  unfold String_match.
  destruct s as [|c s]; cbn [search_from];
    destruct (exec_at sld_re 0 _) as [m|] eqn:Em;
    try (eapply exec_at_sld_inv; exact Em).
  - intros Hp. apply exec_at_sld in Hp as [m Hm]. congruence.
  - unfold sld_re at 1. rewrite search_from_Bol.
    intros Hp. apply exec_at_sld in Hp as [m Hm]. congruence.
Qed.

Lemma splitHostname_cases hostname :
  splitHostname hostname =
  if (2 <? List.length (labels hostname))%nat then
    match String_match (dotted (last_labels 2 (labels hostname))) sld_re with
    | Some _ =>
        if (3 <? List.length (labels hostname))%nat then
          {| domain := dotted (last_labels 3 (labels hostname));
             subdomain := Some (dotted (leading_labels 3 (labels hostname))) |}
        else {| domain := hostname; subdomain := None |}
    | None =>
        {| domain := dotted (last_labels 2 (labels hostname));
           subdomain := Some (dotted (leading_labels 2 (labels hostname))) |}
    end
  else {| domain := hostname; subdomain := None |}.
Proof.
  unfold splitHostname, join, labels, dotted, last_labels, leading_labels.
  change (-2)%Z with (- Z.of_nat 2)%Z. change (-3)%Z with (- Z.of_nat 3)%Z.
  rewrite !slice_last, !slice_leading by lia. reflexivity.
Qed.


(** ** URL construction *)

(** The model of [URLSearchParams.toString] against the wording of the
    URL standard. *)
Lemma encode_byte_form c : URLSearchParams.encode_byte c = form_byte c.
Proof. destruct c as [[] [] [] [] [] [] [] []]; reflexivity. Qed.

Lemma encode_percent_encoded s : URLSearchParams.encode s = percent_encoded s.
Proof.
  induction s as [|c s IH]; [reflexivity|].
  cbn [URLSearchParams.encode percent_encoded]. now rewrite encode_byte_form, IH.
Qed.

Lemma toString_query_string q : URLSearchParams.toString q = query_string q.
Proof.
  unfold URLSearchParams.toString.
  induction q as [|[name value] q IH]; [reflexivity|].
  cbn [map String.concat query_string fst snd].
  rewrite !encode_percent_encoded.
  destruct q as [|pair q]; [reflexivity|].
  cbn [map] in *. rewrite IH. now rewrite !append_assoc.
Qed.

Section UrlProofs.

Context {num : Type} `{JsNumber num}.

Lemma append_params_entries (params : Params num) : forall q,
  append_params q params = (q ++ entries_of params)%list.
Proof.
  unfold append_params, entries_of.
  induction params as [|kv params IH]; intros q; cbn [fold_left map].
  - now rewrite app_nil_r.
  - rewrite IH. unfold URLSearchParams.append. now rewrite <- app_assoc.
Qed.

Lemma append_field q name value :
  (if truthy_string value then URLSearchParams.append q name (value_of value) else q)
  = (q ++ field name value)%list.
Proof.
  unfold field, present, caller_given, truthy_string, URLSearchParams.append, value_of.
  destruct value as [v|]; [destruct (String.eqb v "")|]; cbn [negb];
    now rewrite ?app_nil_r.
Qed.

Lemma append_force q (flag : option bool) :
  (if truthy_bool flag then URLSearchParams.append q "force" "true" else q)
  = (q ++ (if truthy_bool flag then [("force", "true")] else []))%list.
Proof.
  unfold URLSearchParams.append. destruct (truthy_bool flag); now rewrite ?app_nil_r.
Qed.

Lemma sync_query_built (options : DomainConnectOptions.t num) :
  append_params
    (if truthy_string (DomainConnectOptions.host options)
     then URLSearchParams.append
            (URLSearchParams.append URLSearchParams.empty "domain"
               (DomainConnectOptions.domain options))
            "host" (value_of (DomainConnectOptions.host options))
     else URLSearchParams.append URLSearchParams.empty "domain"
            (DomainConnectOptions.domain options))
    (DomainConnectOptions.params options)
  = sync_query options.
Proof.
  rewrite append_params_entries, append_field. unfold sync_query.
  unfold URLSearchParams.append, URLSearchParams.empty.
  cbn [app]. now rewrite <- ?app_assoc.
Qed.

Lemma async_query_built (options : DomainConnectOptions.t num) :
  let q0 := URLSearchParams.append URLSearchParams.empty "domain"
              (DomainConnectOptions.domain options) in
  let q1 := if truthy_string (DomainConnectOptions.host options)
            then URLSearchParams.append q0 "host"
                   (value_of (DomainConnectOptions.host options))
            else q0 in
  let q2 := if truthy_string (DomainConnectOptions.redirectUri options)
            then URLSearchParams.append q1 "redirect_uri"
                   (value_of (DomainConnectOptions.redirectUri options))
            else q1 in
  let q3 := if truthy_string (DomainConnectOptions.state options)
            then URLSearchParams.append q2 "state"
                   (value_of (DomainConnectOptions.state options))
            else q2 in
  let q4 := if truthy_bool (DomainConnectOptions.forcePermission options)
            then URLSearchParams.append q3 "force" "true"
            else q3 in
  append_params q4 (DomainConnectOptions.params options) = async_query options.
Proof.
  cbv zeta. rewrite append_params_entries, append_force, !append_field.
  unfold async_query, URLSearchParams.append, URLSearchParams.empty.
  cbn [app]. now rewrite <- ?app_assoc.
Qed.

Lemma generateSyncURL_eq settings (options : DomainConnectOptions.t num) :
  generateSyncURL settings options
  = apply_path (DomainConnectSettings.urlAPI settings) options
    ++ "?" ++ URLSearchParams.toString (sync_query options).
Proof.
  unfold generateSyncURL. cbv zeta. rewrite sync_query_built.
  unfold apply_path. now rewrite !append_assoc.
Qed.

Lemma async_enabled_cases settings :
  negb (truthy_bool (DomainConnectSettings.asyncEnabled settings))
  || negb (truthy_string (DomainConnectSettings.urlAsyncAPI settings))
  = match truthy_bool (DomainConnectSettings.asyncEnabled settings),
          present (DomainConnectSettings.urlAsyncAPI settings) with
    | true, Some _ => false
    | _, _ => true
    end.
Proof.
  unfold present. rewrite truthy_string_caller.
  destruct (truthy_bool _), (caller_given _); reflexivity.
Qed.

Lemma generateAsyncURL_eq settings (options : DomainConnectOptions.t num) :
  generateAsyncURL settings options
  = match truthy_bool (DomainConnectSettings.asyncEnabled settings),
          present (DomainConnectSettings.urlAsyncAPI settings) with
    | true, Some base =>
        Some (apply_path base options
              ++ "?" ++ URLSearchParams.toString (async_query options))
    | _, _ => None
    end.
Proof.
  unfold generateAsyncURL. rewrite async_enabled_cases.
  destruct (truthy_bool (DomainConnectSettings.asyncEnabled settings));
    [|reflexivity].
  destruct (present (DomainConnectSettings.urlAsyncAPI settings)) as [base|] eqn:Hbase;
    [|reflexivity].
  cbv zeta. rewrite (async_query_built options).
  apply caller_given_Some in Hbase. rewrite Hbase. cbn [value_of].
  unfold apply_path. now rewrite !append_assoc.
Qed.

Lemma applyTemplateAsynchronous_eq settings (options : DomainConnectOptions.t num) :
  applyTemplateAsynchronous settings options
  = Ret match generateAsyncURL settings options with
        | Some u =>
            {| DomainConnectResult.success := true;
               DomainConnectResult.redirectUrl := Some u;
               DomainConnectResult.error := None;
               DomainConnectResult.asyncStatusUrl := None |}
        | None =>
            {| DomainConnectResult.success := false;
               DomainConnectResult.redirectUrl := None;
               DomainConnectResult.error :=
                 Some "Asynchronous mode not supported by DNS provider";
               DomainConnectResult.asyncStatusUrl := None |}
        end.
Proof.
  unfold applyTemplateAsynchronous, generateAsyncURL.
  destruct (negb (truthy_bool (DomainConnectSettings.asyncEnabled settings))
            || negb (truthy_string (DomainConnectSettings.urlAsyncAPI settings)));
    reflexivity.
Qed.

End UrlProofs.

(** ** Discovery and the apply wrappers *)

Lemma settings_eta (d : DomainConnectSettings.t) :
  {| DomainConnectSettings.urlAPI := DomainConnectSettings.urlAPI d;
     DomainConnectSettings.syncEnabled := DomainConnectSettings.syncEnabled d;
     DomainConnectSettings.asyncEnabled := DomainConnectSettings.asyncEnabled d;
     DomainConnectSettings.urlAsyncAPI := DomainConnectSettings.urlAsyncAPI d |} = d.
Proof. destruct d; reflexivity. Qed.

(** What one attempt does against the answer of the network. *)
Lemma exec_attempt net history url failed :
  exec net history (attempt url failed)
  = match net history url with
    | Fulfilled response =>
        ([EvGet url],
         Resolves (match successful (Fulfilled response) with
                   | Some d => Some (Some d)
                   | None => None
                   end))
    | Rejected _ => ([EvGet url; EvLog failed], Resolves None)
    end.
Proof.
  unfold attempt, axios_get, console_log, successful.
  cbn [bind try_catch exec fst snd].
  destruct (net history url) as [response|reason]; cbn [bind try_catch exec fst snd].
  - destruct (status response =? 200)%Z; [|reflexivity].
    destruct (data response) as [d|]; [|reflexivity].
    cbn [try_catch exec fst snd]. now rewrite settings_eta.
  - reflexivity.
Qed.

Lemma exec_bind {T U} net (m : io T) (f : T -> io U) : forall history,
  exec net history (bind m f)
  = match snd (exec net history m) with
    | Resolves v =>
        let r := exec net (history ++ requests (fst (exec net history m)))%list (f v) in
        ((fst (exec net history m) ++ fst r)%list, snd r)
    | Rejects e => (fst (exec net history m), Rejects e)
    end.
Proof.
  induction m as [v|e|url k IH|msg k IH|msg e k IH]; intros history;
    cbn [bind exec fst snd requests flat_map app].
  - now rewrite app_nil_r, <- surjective_pairing.
  - reflexivity.
  - rewrite IH. destruct (snd (exec net (history ++ [url]) (k (net history url))));
      cbn [fst snd]; [|reflexivity].
    now rewrite <- app_assoc.
  - rewrite IH. destruct (snd (exec net history k)); reflexivity.
  - rewrite IH. destruct (snd (exec net history k)); reflexivity.
Qed.

Lemma exec_try_catch_resolves {T} net (body : io T) handler : forall history v,
  snd (exec net history body) = Resolves v ->
  exec net history (try_catch body handler) = exec net history body.
Proof.
  induction body as [w|e|url k IH|msg k IH|msg e k IH]; intros history v;
    cbn [try_catch exec fst snd]; intros Hres.
  - reflexivity.
  - discriminate.
  - now rewrite (IH _ _ _ Hres).
  - now rewrite (IH _ _ Hres).
  - now rewrite (IH _ _ Hres).
Qed.

Lemma exec_discoverSettings net history domain :
  exec net history (discoverSettings domain)
  = match net history (primary_url domain) with
    | Rejected _ =>
        match net (history ++ [primary_url domain])%list (fallback_url domain) with
        | Rejected _ =>
            ([EvGet (primary_url domain);
              EvLog ("DNS lookup failed for _domainconnect." ++ domain
                     ++ ", trying alternative method");
              EvGet (fallback_url domain);
              EvLog ("Alternative method failed for " ++ domain)],
             Resolves None)
        | answer =>
            ([EvGet (primary_url domain);
              EvLog ("DNS lookup failed for _domainconnect." ++ domain
                     ++ ", trying alternative method");
              EvGet (fallback_url domain)],
             Resolves (successful answer))
        end
    | answer =>
        match successful answer with
        | Some d => ([EvGet (primary_url domain)], Resolves (Some d))
        | None =>
            match net (history ++ [primary_url domain])%list (fallback_url domain) with
            | Rejected _ =>
                ([EvGet (primary_url domain); EvGet (fallback_url domain);
                  EvLog ("Alternative method failed for " ++ domain)],
                 Resolves None)
            | answer' =>
                ([EvGet (primary_url domain); EvGet (fallback_url domain)],
                 Resolves (successful answer'))
            end
        end
    end.
Proof.
  unfold discoverSettings. cbv zeta.
  match goal with
  | |- exec _ _ (try_catch ?body _) = ?rhs =>
      set (B := body); assert (Hbody : exec net history B = rhs)
  end.
  - subst B. rewrite exec_bind, exec_attempt.
    change ("https://" ++ ("_domainconnect." ++ domain)
            ++ "/v2/domainTemplates/providers") with (primary_url domain).
    change ("https://" ++ domain ++ "/.well-known/domain-connect.json")
      with (fallback_url domain).
    destruct (net history (primary_url domain)) as [response|reason];
      cbn [fst snd requests flat_map app].
    + destruct (successful (Fulfilled response)) as [d|]; [reflexivity|].
      rewrite exec_bind, exec_attempt.
      destruct (net (history ++ [primary_url domain])%list (fallback_url domain))
        as [response'|reason']; cbn [fst snd requests flat_map app exec].
      * destruct (successful (Fulfilled response')); reflexivity.
      * reflexivity.
    + rewrite exec_bind, exec_attempt.
      destruct (net (history ++ [primary_url domain])%list (fallback_url domain))
        as [response'|reason']; cbn [fst snd requests flat_map app exec].
      * destruct (successful (Fulfilled response')); reflexivity.
      * reflexivity.
  - rewrite <- Hbody.
    assert (Hres : exists v, snd (exec net history B) = Resolves v).
    { rewrite Hbody.
      destruct (net history (primary_url domain)) as [response|reason].
      - destruct (successful (Fulfilled response)); [cbn [snd]; eauto|].
        destruct (net (history ++ [primary_url domain])%list (fallback_url domain));
          cbn [snd]; eauto.
      - destruct (net (history ++ [primary_url domain])%list (fallback_url domain));
          cbn [snd]; eauto. }
    destruct Hres as [v Hv]. eapply exec_try_catch_resolves. exact Hv.
Qed.

(** * The library's own tests of the utilities *)

Example replaceVariables_replaces :
  replaceVariables "This is a %variable% with %multiple% replacements"
    [("variable", SString "test"); ("multiple", @SString Z "different")]
  = "This is a test with different replacements".
Proof. vm_compute. reflexivity. Qed.

Example replaceVariables_numeric_and_boolean :
  replaceVariables "Count: %count%, Enabled: %enabled%"
    [("count", SNumber 42%Z); ("enabled", SBoolean true)]
  = "Count: 42, Enabled: true".
Proof. vm_compute. reflexivity. Qed.

Example replaceVariables_preserves_unknown :
  replaceVariables "This is %undefined% but %defined% is replaced"
    [("defined", @SString Z "value")]
  = "This is %undefined% but value is replaced".
Proof. vm_compute. reflexivity. Qed.


Example generateRecords_without_host :
  generateRecords test_template test_params "example.com" None
  = [ record_of CNAME "www" (Some "example.cdn.com");
      record_of A "@" (Some "192.0.2.1");
      record_of TXT "@" (Some "verification=abc123") ].
Proof. vm_compute. reflexivity. Qed.

Example generateRecords_with_host :
  generateRecords test_template test_params "example.com" (Some "app")
  = [ record_of CNAME "www.app" (Some "example.cdn.com");
      record_of A "app" (Some "192.0.2.1");
      record_of TXT "app" (Some "verification=abc123") ].
Proof. vm_compute. reflexivity. Qed.

Example generateRecords_subdomain_under_blog :
  map (@TemplateRecord.host Z)
    (generateRecords (template_of [record_of CNAME "%subdomain%" None])
       [("subdomain", SString "www")] "example.com" (Some "blog"))
  = ["www.blog"].
Proof. vm_compute. reflexivity. Qed.

Example generateRecords_end_to_end :
  generateRecords
    (template_of [record_of A "@" (Some "%ip%"); record_of A "www" (Some "%ip%")])
    [("ip", SString "192.0.2.10")] "example.com" (Some "blog")
  = [record_of A "blog" (Some "192.0.2.10"); record_of A "www.blog" (Some "192.0.2.10")].
Proof. vm_compute. reflexivity. Qed.

(** * The claims *)

(** C1, as stated, fails: the substitution runs first, so a record whose
    raw host is ["%host%"] is no sentinel any more when ["host"] is a key
    of the parameter map.  With [params = {host: "app"}] and caller host
    ["app"] it resolves to ["app.app"]. *)
Lemma host_sentinel_substituted_first :
  map (@TemplateRecord.host Z)
    (generateRecords (template_of [record_of TXT "%host%" None])
       [("host", SString "app")] "example.com" (Some "app"))
  = ["app.app"]
  /\ map (@TemplateRecord.host Z)
       (generateRecords (template_of [record_of TXT "%host%" None])
          [("host", SString "app")] "example.com" None)
     = ["app"].
Proof. split; vm_compute; reflexivity. Qed.

(** C1 (amended).  The resolved host of every record is computed in this
    order: the variables are substituted into the raw host; then, with a
    non-empty caller host, ["@"] becomes the caller host and anything but
    the literal ["%host%"] gets ["."] and the caller host appended;
    finally a host still equal to ["%host%"] becomes the caller host, or
    ["@"] when there is none.  So, when ["host"] is no key of the
    parameter map, a record with raw host ["%host%"] resolves to the
    caller host when one is given and to ["@"] when none is. *)
Theorem generateRecords_host_resolution {num} `{JsNumber num}
        (template : Template.t num) (params : Params num)
        (domain : string) (host : option string) :
  map (@TemplateRecord.host num) (generateRecords template params domain host)
  = map (fun record => resolved_host params host (TemplateRecord.host record))
        (Template.records template)
  /\ (~ In "host" (keys params) ->
      Forall2 (fun record resolved =>
                 TemplateRecord.host record = "%host%" ->
                 TemplateRecord.host resolved
                 = match caller_given host with Some h => h | None => "@" end)
              (Template.records template)
              (generateRecords template params domain host)).
Proof.
  unfold generateRecords. split.
  - rewrite map_map. apply map_ext. intros record. apply resolveRecord_host.
  - intros Hnot. induction (Template.records template) as [|record records IH];
      constructor; [|exact IH].
    intros Hraw. rewrite resolveRecord_host, Hraw.
    apply resolved_host_sentinel, Hnot.
Qed.

(** The library's test template under the caller host ["app"]: its
    parameters have no key ["host"]. *)
Lemma generateRecords_host_resolution_witness :
  Forall2 (fun record resolved =>
             TemplateRecord.host record = "%host%" ->
             TemplateRecord.host resolved = "app")
          (Template.records test_template)
          (generateRecords test_template test_params "example.com" (Some "app")).
Proof.
  apply (proj2 (generateRecords_host_resolution
                  test_template test_params "example.com" (Some "app"))).
  simpl. intuition discriminate.
Defined.

(** C2 does not hold of the code.  The claim leaves a match whose
    identifier is no key of the parameter map as it is, and so do the
    code's own comment ("Keep the original if no replacement found") and
    test.  But [params[varName]] also finds what every object inherits
    from [Object.prototype]: for the empty map [{}] the pass the claim
    describes keeps ["%constructor%"], whereas the code returns the text
    of the function [Object]; with a key in the map, ["%toString%"]
    beside it is replaced likewise. *)
Theorem replaceVariables_inherited_member :
  substitutes ([] : Params Z) "%constructor%" "%constructor%"
  /\ replaceVariables "%constructor%" ([] : Params Z)
     = "function Object() { [native code] }"
  /\ ~ substitutes ([] : Params Z) "%constructor%"
        (replaceVariables "%constructor%" ([] : Params Z))
  /\ replaceVariables "%name%: %toString%" [("name", @SString Z "www")]
     = "www: function toString() { [native code] }".
Proof.
  split; [|split; [|split]].
  - change "%constructor%" with ("%" ++ "constructor" ++ "%" ++ "").
    apply subst_keep; [split; [discriminate | reflexivity] | intros [] | constructor].
  - vm_compute. reflexivity.
  - assert (Hout : replaceVariables "%constructor%" ([] : Params Z)
                   = "function Object() { [native code] }") by (vm_compute; reflexivity).
    rewrite Hout. intros Hpass.
    apply substitutes_empty in Hpass. discriminate.
  - vm_compute. reflexivity.
Qed.

(** C6, as stated, fails: with no caller host a record host that is
    neither ["@"] nor ["%host%"] resolves to itself, here ["www"].  The
    library's own test expects ["www"] likewise for the record host
    ["%subdomain%"] substituted by ["www"]. *)
Lemma host_without_caller_is_kept :
  ~ Forall (stated_host_form None)
      (map (@TemplateRecord.host Z)
         (generateRecords (template_of [record_of CNAME "www" None])
            [] "example.com" None)).
Proof.
  intros Hall. apply Forall_inv in Hall. vm_compute in Hall.
  destruct Hall as [Hcaller | [Hat | [(x & h & Hcaller & _) | (id & _ & Hid)]]];
    discriminate.
Qed.

(** C6 (amended).  The resolved host of every record is one of: the caller
    host; ["@"]; the substituted record host (unresolved placeholders
    included) followed by ["."] and the caller host; or, when no caller
    host is given, the substituted record host itself. *)
Theorem generateRecords_host_forms {num} `{JsNumber num}
        (template : Template.t num) (params : Params num)
        (domain : string) (host : option string) :
  Forall2 (fun record resolved =>
             host_form params host (TemplateRecord.host record)
                       (TemplateRecord.host resolved))
          (Template.records template)
          (generateRecords template params domain host).
Proof.
  unfold generateRecords.
  induction (Template.records template) as [|record records IH]; constructor.
  - rewrite resolveRecord_host. apply resolved_host_form.
  - exact IH.
Qed.

Example validateParameters_falsy_values_count :
  validateParameters
    {| Template.providerId := "example-provider";
       Template.serviceId := "example-service";
       Template.name := None; Template.description := None;
       Template.version := None; Template.hostRequired := None;
       Template.parameters :=
         Some [ {| TemplateParameter.name := "port"; TemplateParameter.dataType := None;
                   TemplateParameter.required := Some true;
                   TemplateParameter.defaultValue := None;
                   TemplateParameter.description := None;
                   TemplateParameter.hidden := None |};
                {| TemplateParameter.name := "enabled"; TemplateParameter.dataType := None;
                   TemplateParameter.required := Some true;
                   TemplateParameter.defaultValue := None;
                   TemplateParameter.description := None;
                   TemplateParameter.hidden := None |};
                {| TemplateParameter.name := "label"; TemplateParameter.dataType := None;
                   TemplateParameter.required := Some true;
                   TemplateParameter.defaultValue := None;
                   TemplateParameter.description := None;
                   TemplateParameter.hidden := None |} ];
       Template.records := []; Template.logoUrl := None;
       Template.syncSupported := None; Template.asyncSupported := None |}
    [("port", SNumber 0%Z); ("enabled", SBoolean false)]
  = {| valid := false; missing := ["label"] |}.
Proof. vm_compute. reflexivity. Qed.

(** C3 does not hold of the code.  The claim, like the code's own
    documentation ("Validate that all required parameters are provided"),
    reports a required parameter whose name is no key of the parameter
    map.  But [params[param.name] === undefined] is false for a name that
    every object inherits from [Object.prototype]: for a template whose
    one required parameter is called ["constructor"] and the empty map
    [{}], the code returns [{valid: true, missing: []}], where the claim
    has [missing = ["constructor"]] and [valid = false]. *)
Theorem validateParameters_inherited_name :
  let template : Template.t Z := requires "constructor" in
  validateParameters template [] = {| valid := true; missing := [] |}
  /\ map (@TemplateParameter.name Z) (filter (required_and_absent []) (declared template))
     = ["constructor"]
  /\ ~ (valid (validateParameters template []) = true
        <-> forall p, In p (declared template) ->
                      TemplateParameter.required p = Some true ->
                      In (TemplateParameter.name p) (keys ([] : Params Z))).
Proof.
  cbv zeta. split; [vm_compute; reflexivity|]. split; [vm_compute; reflexivity|].
  intros [Hvalid _].
  refine (Hvalid _ _ (or_introl eq_refl) eq_refl).
  vm_compute. reflexivity.
Qed.

Example splitHostname_nested_subdomain :
  splitHostname "sub.domain.example.com"
  = {| domain := "example.com"; subdomain := Some "sub.domain" |}.
Proof. vm_compute. reflexivity. Qed.


(** * The library's own tests of the client *)

Example generateSyncURL_mock :
  generateSyncURL mockSettings mockOptions
  = "https://api.domainconnect.example.com/v2/domainTemplates/providers/test-provider/services/test-service/apply?domain=example.com&host=blog&ip=192.0.2.1&subdomain=www".
Proof. vm_compute. reflexivity. Qed.

Example generateAsyncURL_mock :
  generateAsyncURL mockSettings mockOptions
  = Some "https://async.domainconnect.example.com/v2/domainTemplates/providers/test-provider/services/test-service/apply?domain=example.com&host=blog&redirect_uri=https%3A%2F%2Fexample.com%2Fcallback&state=random-state&force=true&ip=192.0.2.1&subdomain=www".
Proof. vm_compute. reflexivity. Qed.

Example generateAsyncURL_without_async :
  generateAsyncURL settingsWithoutAsync mockOptions = None.
Proof. reflexivity. Qed.


Example discoverSettings_fallback :
  let body := {| DomainConnectSettings.urlAPI := "https://x";
                 DomainConnectSettings.syncEnabled := Some true;
                 DomainConnectSettings.asyncEnabled := Some false;
                 DomainConnectSettings.urlAsyncAPI := None |} in
  let run := exec (fallback_only body) [] (discoverSettings "example.com") in
  snd run = Resolves (Some body)
  /\ requests (fst run)
     = ["https://_domainconnect.example.com/v2/domainTemplates/providers";
        "https://example.com/.well-known/domain-connect.json"].
Proof. split; vm_compute; reflexivity. Qed.

Example applyTemplateSynchronous_applies :
  exec answers_200 [] (applyTemplateSynchronous mockSettings mockOptions)
  = ([EvGet "https://api.domainconnect.example.com/v2/domainTemplates/providers/test-provider/services/test-service/apply?domain=example.com&host=blog&ip=192.0.2.1&subdomain=www"],
     Resolves {| DomainConnectResult.success := true;
                 DomainConnectResult.redirectUrl := None;
                 DomainConnectResult.error := None;
                 DomainConnectResult.asyncStatusUrl := None |}).
Proof. vm_compute. reflexivity. Qed.

Example applyTemplateSynchronous_api_error :
  snd (exec api_error [] (applyTemplateSynchronous mockSettings mockOptions))
  = Resolves {| DomainConnectResult.success := false;
                DomainConnectResult.redirectUrl := None;
                DomainConnectResult.error := Some "API error";
                DomainConnectResult.asyncStatusUrl := None |}.
Proof. vm_compute. reflexivity. Qed.

Example discoverSettings_offline :
  snd (exec offline [] (discoverSettings "example.com")) = Resolves None
  /\ List.length (requests (fst (exec offline [] (discoverSettings "example.com")))) = 2%nat.
Proof. split; vm_compute; reflexivity. Qed.

(** C5.  [generateSyncURL] returns [settings.urlAPI], the apply path of the
    provider and the service, ["?"] and the encoded query whose parameters
    are, in this order: [domain]; [host], only if present; every entry of
    [options.params] in the order of the map, each value in its string
    form [String(value)], the one the substitution uses.  In the encoded
    query every pair is [name=value], the pairs are joined by [&], and a
    byte other than a letter, a digit, [*], [-], [.] or [_] is written
    [+] when it is a space and as [%] with two hexadecimal digits
    otherwise. *)
Theorem generateSyncURL_spec {num} `{JsNumber num}
        (settings : DomainConnectSettings.t) (options : DomainConnectOptions.t num) :
  generateSyncURL settings options
  = DomainConnectSettings.urlAPI settings
    ++ "/v2/domainTemplates/providers/" ++ DomainConnectOptions.providerId options
    ++ "/services/" ++ DomainConnectOptions.serviceId options ++ "/apply"
    ++ "?" ++ query_string
                ([("domain", DomainConnectOptions.domain options)]
                 ++ match present (DomainConnectOptions.host options) with
                    | Some h => [("host", h)]
                    | None => []
                    end
                 ++ map (fun kv => (fst kv, ToString (snd kv)))
                        (DomainConnectOptions.params options))%list
  /\ (forall value : scalar num,
        replaceVariables "%value%" [("value", value)] = ToString value)
  /\ (forall s : string, ToString (@SString num s) = s)
  /\ ToString (@SBoolean num true) = "true"
  /\ ToString (@SBoolean num false) = "false"
  /\ generateSyncURL mockSettings mockOptions
     = "https://api.domainconnect.example.com/v2/domainTemplates/providers/test-provider/services/test-service/apply?domain=example.com&host=blog&ip=192.0.2.1&subdomain=www"
  /\ generateSyncURL mockSettings escapedOptions
     = "https://api.domainconnect.example.com/v2/domainTemplates/providers/test-provider/services/test-service/apply?domain=example.com&txt=v%3Dspf1+include%3A_spf.example.com+%7Eall&weight=10&proxied=false".
Proof.
  split; [|split; [|repeat split; vm_compute; reflexivity]].
  - rewrite generateSyncURL_eq, toString_query_string.
    unfold apply_path. now rewrite !append_assoc.
  - intros value. change "%value%" with ("%" ++ "value" ++ "%" ++ "").
    rewrite replaceVariables_placeholder by (split; [discriminate | reflexivity]).
    rewrite (get_own [("value", value)] "value" (v := value)) by reflexivity.
    cbn [property_toString]. rewrite replaceVariables_empty.
    apply append_nil_r.
Qed.

(** C7.  [generateAsyncURL] returns [null] whenever [settings.asyncEnabled]
    is falsy or [settings.urlAsyncAPI] is absent, and the wrapper
    [applyTemplateAsynchronous] then makes no network call.  Otherwise it
    returns the apply URL under [settings.urlAsyncAPI] with the query
    parameters [domain], [host] (if present), [redirect_uri] (if present,
    percent-encoded), [state] (if present), [force=true] (if
    [forcePermission] is truthy) and then every entry of [options.params].
    Percent-encoded: in the query every byte of a name or value other than
    a letter, a digit, [*], [-], [.] or [_] is written [+] when it is a
    space and as [%] with two hexadecimal digits otherwise, so that the
    redirect URI [https://example.com/callback] is sent as
    [https%3A%2F%2Fexample.com%2Fcallback]. *)
Theorem generateAsyncURL_spec {num} `{JsNumber num}
        (settings : DomainConnectSettings.t) (options : DomainConnectOptions.t num) :
  generateAsyncURL settings options
  = match truthy_bool (DomainConnectSettings.asyncEnabled settings),
          present (DomainConnectSettings.urlAsyncAPI settings) with
    | true, Some base =>
        Some (base ++ "/v2/domainTemplates/providers/"
                   ++ DomainConnectOptions.providerId options
                   ++ "/services/" ++ DomainConnectOptions.serviceId options
                   ++ "/apply" ++ "?"
                   ++ query_string
                        ([("domain", DomainConnectOptions.domain options)]
                         ++ match present (DomainConnectOptions.host options) with
                            | Some h => [("host", h)]
                            | None => []
                            end
                         ++ match present (DomainConnectOptions.redirectUri options) with
                            | Some uri => [("redirect_uri", uri)]
                            | None => []
                            end
                         ++ match present (DomainConnectOptions.state options) with
                            | Some state => [("state", state)]
                            | None => []
                            end
                         ++ (if truthy_bool (DomainConnectOptions.forcePermission options)
                             then [("force", "true")] else [])
                         ++ map (fun kv => (fst kv, ToString (snd kv)))
                                (DomainConnectOptions.params options))%list)
    | _, _ => None
    end
  /\ (truthy_bool (DomainConnectSettings.asyncEnabled settings) = false
      \/ present (DomainConnectSettings.urlAsyncAPI settings) = None ->
      generateAsyncURL settings options = None
      /\ forall net history,
           fst (exec net history (applyTemplateAsynchronous settings options)) = [])
  /\ query_string [("redirect_uri", "https://example.com/callback")]
     = "redirect_uri=https%3A%2F%2Fexample.com%2Fcallback"
  /\ generateAsyncURL mockSettings mockOptions
     = Some "https://async.domainconnect.example.com/v2/domainTemplates/providers/test-provider/services/test-service/apply?domain=example.com&host=blog&redirect_uri=https%3A%2F%2Fexample.com%2Fcallback&state=random-state&force=true&ip=192.0.2.1&subdomain=www"
  /\ generateAsyncURL mockSettings escapedOptions
     = Some "https://async.domainconnect.example.com/v2/domainTemplates/providers/test-provider/services/test-service/apply?domain=example.com&redirect_uri=https%3A%2F%2Fexample.com%2Fdone%3Fstep%3D2%26ok%3D1&txt=v%3Dspf1+include%3A_spf.example.com+%7Eall&weight=10&proxied=false".
Proof.
  split; [|split; [|repeat split; vm_compute; reflexivity]].
  - rewrite generateAsyncURL_eq, toString_query_string.
    destruct (truthy_bool _); [|reflexivity].
    destruct (present _) as [base|]; [|reflexivity].
    unfold apply_path. now rewrite !append_assoc.
  - intros Hoff. assert (Hnone : generateAsyncURL settings options = None).
    { rewrite generateAsyncURL_eq. destruct Hoff as [-> | ->]; [reflexivity|].
      destruct (truthy_bool _); reflexivity. }
    split; [exact Hnone|]. intros net history.
    rewrite applyTemplateAsynchronous_eq. reflexivity.
Qed.

(** Settings with [asyncEnabled: false]. *)
Lemma generateAsyncURL_spec_witness :
  generateAsyncURL settingsWithoutAsync mockOptions = None
  /\ forall net history,
       fst (exec net history (applyTemplateAsynchronous settingsWithoutAsync mockOptions))
       = [].
Proof.
  apply (proj1 (proj2 (generateAsyncURL_spec settingsWithoutAsync mockOptions))).
  left. reflexivity.
Defined.

(** C8.  [applyTemplateSynchronous] resolves to [{success: false, error:
    "Synchronous mode not supported by DNS provider"}] when
    [settings.syncEnabled] is falsy, and [applyTemplateAsynchronous] to
    [{success: false, error: "Asynchronous mode not supported by DNS
    provider"}] when [settings.asyncEnabled] is falsy or
    [settings.urlAsyncAPI] is missing; in both cases nothing is requested
    from the network. *)
Theorem apply_short_circuits {num} `{JsNumber num}
        (settings : DomainConnectSettings.t) (options : DomainConnectOptions.t num)
        (net : network) (history : list string) :
  (truthy_bool (DomainConnectSettings.syncEnabled settings) = false ->
   exec net history (applyTemplateSynchronous settings options)
   = ([], Resolves {| DomainConnectResult.success := false;
                      DomainConnectResult.redirectUrl := None;
                      DomainConnectResult.error :=
                        Some "Synchronous mode not supported by DNS provider";
                      DomainConnectResult.asyncStatusUrl := None |}))
  /\ (truthy_bool (DomainConnectSettings.asyncEnabled settings) = false
      \/ present (DomainConnectSettings.urlAsyncAPI settings) = None ->
      exec net history (applyTemplateAsynchronous settings options)
      = ([], Resolves {| DomainConnectResult.success := false;
                         DomainConnectResult.redirectUrl := None;
                         DomainConnectResult.error :=
                           Some "Asynchronous mode not supported by DNS provider";
                         DomainConnectResult.asyncStatusUrl := None |})).
Proof.
  split.
  - intros Hoff. unfold applyTemplateSynchronous. rewrite Hoff. reflexivity.
  - intros Hoff. rewrite applyTemplateAsynchronous_eq, generateAsyncURL_eq.
    destruct Hoff as [-> | ->]; [reflexivity|].
    destruct (truthy_bool _); reflexivity.
Qed.

(** Settings with [syncEnabled: false], and with [asyncEnabled: false]. *)
Lemma apply_short_circuits_witness :
  exec offline [] (applyTemplateSynchronous settingsWithoutSync mockOptions)
  = ([], Resolves {| DomainConnectResult.success := false;
                     DomainConnectResult.redirectUrl := None;
                     DomainConnectResult.error :=
                       Some "Synchronous mode not supported by DNS provider";
                     DomainConnectResult.asyncStatusUrl := None |})
  /\ exec offline [] (applyTemplateAsynchronous settingsWithoutAsync mockOptions)
     = ([], Resolves {| DomainConnectResult.success := false;
                        DomainConnectResult.redirectUrl := None;
                        DomainConnectResult.error :=
                          Some "Asynchronous mode not supported by DNS provider";
                        DomainConnectResult.asyncStatusUrl := None |}).
Proof.
  split.
  - apply (proj1 (apply_short_circuits settingsWithoutSync mockOptions offline [])).
    reflexivity.
  - apply (proj2 (apply_short_circuits settingsWithoutAsync mockOptions offline [])).
    left. reflexivity.
Defined.

(** C9.  [discoverSettings] first fetches the well-known path under
    [_domainconnect.] of the domain; if that fetch does not succeed it
    fetches the well-known path under the domain itself.  It resolves to
    the settings of the first successful fetch and to [null] when both
    fail; it never rejects. *)
Theorem discoverSettings_spec (domain : string) (net : network) (history : list string) :
  let first := net history (primary_url domain) in
  let second := net (history ++ [primary_url domain])%list (fallback_url domain) in
  let run := exec net history (discoverSettings domain) in
  requests (fst run)
  = match successful first with
    | Some _ => [primary_url domain]
    | None => [primary_url domain; fallback_url domain]
    end
  /\ snd run
     = Resolves match successful first with
                | Some d => Some d
                | None => successful second
                end
  /\ primary_url domain
     = "https://_domainconnect." ++ domain ++ "/v2/domainTemplates/providers"
  /\ fallback_url domain = "https://" ++ domain ++ "/.well-known/domain-connect.json".
Proof.
  cbv zeta. rewrite exec_discoverSettings.
  destruct (net history (primary_url domain)) as [response|reason].
  - destruct (successful (Fulfilled response)) as [d|]; [repeat split|].
    destruct (net (history ++ [primary_url domain])%list (fallback_url domain));
      repeat split.
  - cbn [successful].
    destruct (net (history ++ [primary_url domain])%list (fallback_url domain));
      repeat split.
Qed.

(** C10.  With [settings.asyncEnabled] truthy and [settings.urlAsyncAPI]
    present, [applyTemplateAsynchronous] requests nothing from the network
    and resolves to [{success: true, redirectUrl: u}], where [u] is the URL
    [generateAsyncURL] returns for the same settings and options. *)
Theorem applyTemplateAsynchronous_redirect {num} `{JsNumber num}
        (settings : DomainConnectSettings.t) (options : DomainConnectOptions.t num)
        (net : network) (history : list string) :
  truthy_bool (DomainConnectSettings.asyncEnabled settings) = true ->
  present (DomainConnectSettings.urlAsyncAPI settings) <> None ->
  exists u,
    generateAsyncURL settings options = Some u
    /\ exec net history (applyTemplateAsynchronous settings options)
       = ([], Resolves {| DomainConnectResult.success := true;
                          DomainConnectResult.redirectUrl := Some u;
                          DomainConnectResult.error := None;
                          DomainConnectResult.asyncStatusUrl := None |}).
Proof.
  intros Hon Hurl. rewrite applyTemplateAsynchronous_eq, generateAsyncURL_eq, Hon.
  destruct (present (DomainConnectSettings.urlAsyncAPI settings)) as [base|];
    [|contradiction].
  eexists. split; reflexivity.
Qed.

(** The settings and options of the library's client tests. *)
Lemma applyTemplateAsynchronous_redirect_witness :
  exists u,
    generateAsyncURL mockSettings mockOptions = Some u
    /\ exec offline [] (applyTemplateAsynchronous mockSettings mockOptions)
       = ([], Resolves {| DomainConnectResult.success := true;
                          DomainConnectResult.redirectUrl := Some u;
                          DomainConnectResult.error := None;
                          DomainConnectResult.asyncStatusUrl := None |}).
Proof.
  apply (applyTemplateAsynchronous_redirect mockSettings mockOptions offline []).
  - reflexivity.
  - discriminate.
Defined.

(** * Further properties of the utilities *)

(** ** Substitution *)

Lemma placeholder_at_head_cases text :
  placeholder_at_head text \/ ~ placeholder_at_head text.
Proof.
  destruct (variable_match text) as [m|] eqn:Em.
  - left. eapply variable_match_inv; exact Em.
  - right. intros (id & post & Hid & ->).
    rewrite (variable_match_placeholder post Hid) in Em. discriminate.
Qed.

(** Induction along the pass [replaceVariables] makes over a text. *)
Lemma text_pass_ind (P : string -> Prop) :
  P "" ->
  (forall id post, is_identifier id -> P post -> P ("%" ++ id ++ "%" ++ post)) ->
  (forall c post, ~ placeholder_at_head (String c post) -> P post -> P (String c post)) ->
  forall text, P text.
Proof.
  intros Hend Hmatch Hcopy text.
  remember (String.length text) as n eqn:Hn. revert text Hn.
  induction n as [n IH] using lt_wf_ind. intros text Hn.
  destruct text as [|c post]; [exact Hend|].
  destruct (placeholder_at_head_cases (String c post)) as [(id & post' & Hid & Heq)|Hno].
  - rewrite Heq. apply Hmatch; [exact Hid|].
    apply (IH (String.length post')); [|reflexivity].
    subst n. rewrite Heq. cbn [append String.length].
    rewrite !length_append. cbn [String.length]. lia.
  - apply Hcopy; [exact Hno|].
    apply (IH (String.length post)); [subst n; simpl; lia | reflexivity].
Qed.

Lemma plain_char_no_placeholder c post :
  Ascii.eqb c "%" = false -> ~ placeholder_at_head (String c post).
Proof.
  intros Hc (id & post' & _ & Heq). cbn [append] in Heq.
  injection Heq as -> _. now rewrite Ascii.eqb_refl in Hc.
Qed.

(** X1.  Text up to the first [%] is copied as it is and substitution goes
    on behind it; a text without any [%] is returned unchanged, whatever
    the parameters. *)
Theorem replaceVariables_plain_prefix {num} `{JsNumber num}
        (params : Params num) (plain text : string) :
  no_percent plain = true ->
  replaceVariables (plain ++ text) params = plain ++ replaceVariables text params
  /\ replaceVariables plain params = plain.
Proof.
  intros Hplain.
  assert (Hprefix : forall post,
             replaceVariables (plain ++ post) params
             = plain ++ replaceVariables post params).
  { intros post. induction plain as [|c plain IH]; [reflexivity|].
    cbn [no_percent all_chars] in Hplain. apply andb_true_iff in Hplain as [Hc Hrest].
    apply negb_true_iff in Hc. cbn [append].
    rewrite replaceVariables_copy by now apply plain_char_no_placeholder.
    now rewrite (IH Hrest). }
  split; [apply Hprefix|].
  rewrite <- (append_nil_r plain) at 1. rewrite Hprefix, replaceVariables_empty.
  apply append_nil_r.
Qed.

Lemma replaceVariables_plain_prefix_witness :
  replaceVariables ("verification=" ++ "%code%") [("code", @SString Z "abc123")]
  = "verification=" ++ replaceVariables "%code%" [("code", @SString Z "abc123")]
  /\ replaceVariables "verification=" [("code", @SString Z "abc123")] = "verification=".
Proof.
  apply (replaceVariables_plain_prefix [("code", @SString Z "abc123")]
           "verification=" "%code%").
  reflexivity.
Defined.

Lemma usable_key_identifier key : usable_key key = true <-> is_identifier key.
Proof.
  unfold usable_key, is_identifier. rewrite andb_true_iff, negb_true_iff, String.eqb_neq.
  tauto.
Qed.

Lemma own_usable {num} (params : Params num) id :
  is_identifier id -> own (usable_entries params) id = own params id.
Proof.
  intros Hid. unfold usable_entries.
  induction params as [|[k v] params IH]; [reflexivity|].
  cbn [filter fst own]. destruct (usable_key k) eqn:Hk.
  - cbn [own]. now rewrite IH.
  - destruct (String.eqb_spec k id) as [->|_]; [|exact IH].
    apply usable_key_identifier in Hid. congruence.
Qed.

Lemma usable_entries_none {num} (params : Params num) :
  (forall key, In key (keys params) -> ~ is_identifier key) -> usable_entries params = [].
Proof.
  intros Hkeys. unfold usable_entries. apply filter_nil_iff. intros [k v] Hin.
  cbn [fst]. destruct (usable_key k) eqn:Hk; [|reflexivity].
  apply usable_key_identifier in Hk. exfalso. apply (Hkeys k); [|exact Hk].
  unfold keys. apply (in_map fst) in Hin. exact Hin.
Qed.

(** X2.  A key that is not a word of [[A-Za-z0-9_]+] is never
    substituted: for every text the result is the same with the entries
    under such keys removed from the parameter map.  So a map none of
    whose keys is such a word gives what the empty map gives. *)
Theorem replaceVariables_unusable_keys {num} `{JsNumber num}
        (params : Params num) (text : string) :
  replaceVariables text params = replaceVariables text (usable_entries params)
  /\ ((forall key, In key (keys params) -> ~ is_identifier key) ->
      replaceVariables text params = replaceVariables text [])
  /\ replaceVariables "%sub-domain%.%sub_domain%.%%"
       [("sub-domain", @SString Z "www"); ("sub_domain", SString "api"); ("", SString "none")]
     = "%sub-domain%.api.%%".
Proof.
  assert (Hsame : forall t, replaceVariables t params
                            = replaceVariables t (usable_entries params)).
  { intros t. induction t as [|id post Hid IH|c post Hno IH] using text_pass_ind.
    - reflexivity.
    - rewrite !(replaceVariables_placeholder _ post Hid), IH.
      unfold get. now rewrite (own_usable params Hid).
    - now rewrite !(replaceVariables_copy _ Hno), IH. }
  split; [apply Hsame|]. split; [|vm_compute; reflexivity].
  intros Hkeys. now rewrite Hsame, (usable_entries_none params Hkeys).
Qed.

Lemma replaceVariables_unusable_keys_witness :
  replaceVariables "%sub-domain%.%sub_domain%" [("sub-domain", @SString Z "www")]
  = replaceVariables "%sub-domain%.%sub_domain%" [].
Proof.
  apply (proj1 (proj2 (replaceVariables_unusable_keys [("sub-domain", @SString Z "www")]
                         "%sub-domain%.%sub_domain%"))).
  intros key [<-|[]] [_ Hchars]. vm_compute in Hchars. discriminate.
Defined.

(** X25.  What [replaceVariables] does, member names included: one
    left-to-right, non-overlapping pass over the matches of
    [%[A-Za-z0-9_]+%].  A match whose identifier is a key of the parameter
    map is replaced, delimiters included, by the string form of the value:
    a string as it is, a boolean as ["true"] or ["false"], a number by
    [String(n)].  A match whose identifier is no key but the name of a
    member of [Object.prototype] is replaced by the text [String] gives
    for that member.  Every other match, and every character outside a
    match, is copied. *)
Theorem replaceVariables_pass {num} `{JsNumber num} (params : Params num) (text : string) :
  (forall out, replaces params text out <-> replaceVariables text params = out)
  /\ (forall s : string, ToString (@SString num s) = s)
  /\ ToString (@SBoolean num true) = "true"
  /\ ToString (@SBoolean num false) = "false"
  /\ (forall n : num, ToString (SNumber n) = number_toString n)
  /\ replaceVariables "Count: %count%, Enabled: %enabled%, %left% as it is, %%count%%"
       [("count", SNumber 42%Z); ("enabled", SBoolean true)]
     = "Count: 42, Enabled: true, %left% as it is, %42%"
  /\ replaceVariables "%a%b%" [("a", @SString Z "%b%"); ("b", SString "never")]
     = "%b%b%"
  /\ replaceVariables "%valueOf% %__proto__%" [("valueOf", @SString Z "own")]
     = "own [object Object]".
Proof.
  split; [intros out; apply replaces_iff|].
  repeat split; vm_compute; reflexivity.
Qed.

(** ** Record resolution *)

Lemma resolveRecord_fields {num} `{JsNumber num} (params : Params num)
      (host : option string) (record : TemplateRecord.t num) :
  TemplateRecord.type (resolveRecord params host record) = TemplateRecord.type record
  /\ TemplateRecord.ttl (resolveRecord params host record) = TemplateRecord.ttl record
  /\ TemplateRecord.priority (resolveRecord params host record)
     = TemplateRecord.priority record
  /\ TemplateRecord.weight (resolveRecord params host record)
     = TemplateRecord.weight record
  /\ TemplateRecord.port (resolveRecord params host record) = TemplateRecord.port record.
Proof.
  unfold resolveRecord.
  repeat match goal with
         | |- context [if ?b then _ else _] => destruct b
         end; repeat split.
Qed.

Lemma resolveRecord_pointsTo {num} `{JsNumber num} (params : Params num)
      (host : option string) (record : TemplateRecord.t num) :
  TemplateRecord.pointsTo (resolveRecord params host record)
  = match TemplateRecord.pointsTo record with
    | Some target =>
        if String.eqb target "" then Some "" else Some (replaceVariables target params)
    | None => None
    end.
Proof.
  unfold resolveRecord.
  assert (Hkeep : forall r h, TemplateRecord.pointsTo (TemplateRecord.set_host r h)
                              = @TemplateRecord.pointsTo num r) by reflexivity.
  repeat match goal with
         | |- context [truthy_string (TemplateRecord.pointsTo ?r)] =>
             match r with
             | record => fail 1
             | _ => replace (TemplateRecord.pointsTo r)
                      with (TemplateRecord.pointsTo record)
                      by (repeat match goal with
                                 | |- context [if ?b then _ else _] => destruct b
                                 end; reflexivity)
             end
         end.
  unfold or_empty, truthy_string.
  destruct (TemplateRecord.pointsTo record) as [target|] eqn:Htarget.
  - destruct (String.eqb_spec target "") as [->|Hne]; cbn [negb].
    + repeat match goal with
             | |- context [if ?b then _ else _] => destruct b
             end; cbn [TemplateRecord.pointsTo TemplateRecord.set_host]; exact Htarget.
    + reflexivity.
  - repeat match goal with
           | |- context [if ?b then _ else _] => destruct b
           end; cbn [TemplateRecord.pointsTo TemplateRecord.set_host]; exact Htarget.
Qed.

(** X3.  [generateRecords] yields one record per template record, in the
    same order, and leaves [type], [ttl], [priority], [weight] and [port]
    of each as they are. *)
Theorem generateRecords_keeps_fields {num} `{JsNumber num}
        (template : Template.t num) (params : Params num)
        (domain : string) (host : option string) :
  List.length (generateRecords template params domain host)
  = List.length (Template.records template)
  /\ Forall2 (fun record resolved =>
                TemplateRecord.type resolved = TemplateRecord.type record
                /\ TemplateRecord.ttl resolved = TemplateRecord.ttl record
                /\ TemplateRecord.priority resolved = TemplateRecord.priority record
                /\ TemplateRecord.weight resolved = TemplateRecord.weight record
                /\ TemplateRecord.port resolved = TemplateRecord.port record)
             (Template.records template)
             (generateRecords template params domain host).
Proof.
  unfold generateRecords. split; [apply length_map|].
  induction (Template.records template) as [|record records IH]; constructor.
  - apply resolveRecord_fields.
  - exact IH.
Qed.

(** X4.  A record without [pointsTo], or with an empty one, keeps it; any
    other [pointsTo] is replaced by its substitution.  The caller host
    plays no role in it. *)
Theorem generateRecords_pointsTo {num} `{JsNumber num}
        (template : Template.t num) (params : Params num)
        (domain : string) (host : option string) :
  map (@TemplateRecord.pointsTo num) (generateRecords template params domain host)
  = map (fun record =>
           match TemplateRecord.pointsTo record with
           | Some target =>
               if String.eqb target "" then Some ""
               else Some (replaceVariables target params)
           | None => None
           end)
        (Template.records template).
Proof.
  unfold generateRecords. rewrite map_map. apply map_ext.
  intros record. apply resolveRecord_pointsTo.
Qed.

(** X5.  The sentinel never survives: unless the caller host is itself
    ["%host%"], no resolved record has the host ["%host%"]. *)
Theorem generateRecords_no_sentinel {num} `{JsNumber num}
        (template : Template.t num) (params : Params num)
        (domain : string) (host : option string) :
  host <> Some "%host%" ->
  Forall (fun resolved => TemplateRecord.host resolved <> "%host%")
         (generateRecords template params domain host).
Proof.
  intros Hhost. unfold generateRecords. apply Forall_forall.
  intros resolved Hin. apply in_map_iff in Hin as (record & <- & _).
  rewrite resolveRecord_host. unfold resolved_host, sentinel_phase, concat_phase.
  destruct (caller_given host) as [h|] eqn:Hcaller.
  - apply caller_given_Some in Hcaller.
    assert (Hh : h <> "%host%") by congruence.
    destruct (String.eqb (replaceVariables (TemplateRecord.host record) params) "@").
    + destruct (String.eqb_spec h "%host%"); congruence.
    + destruct (String.eqb (replaceVariables (TemplateRecord.host record) params)
                           "%host%") eqn:Esent.
      * rewrite Esent. exact Hh.
      * rewrite dotted_not_sentinel. apply String.eqb_neq, dotted_not_sentinel.
  - destruct (String.eqb_spec (replaceVariables (TemplateRecord.host record) params)
                              "%host%"); [discriminate | assumption].
Qed.

Lemma generateRecords_no_sentinel_witness :
  Forall (fun resolved => TemplateRecord.host resolved <> "%host%")
         (generateRecords test_template test_params "example.com" (Some "app")).
Proof.
  apply (generateRecords_no_sentinel test_template test_params "example.com").
  discriminate.
Defined.

(** ** Validation *)

Lemma validateParameters_missing {num} `{JsNumber num}
      (template : Template.t num) (params : Params num) :
  missing (validateParameters template params)
  = map (@TemplateParameter.name num)
        (filter (required_and_undefined params) (declared template)).
Proof.
  unfold validateParameters, declared.
  destruct (Template.parameters template) as [ps|]; cbn [missing]; [|reflexivity].
  now rewrite missing_filter.
Qed.

Lemma validateParameters_valid {num} `{JsNumber num}
      (template : Template.t num) (params : Params num) :
  valid (validateParameters template params) = true
  <-> missing (validateParameters template params) = [].
Proof.
  unfold validateParameters.
  destruct (Template.parameters template) as [ps|]; cbn [valid missing]; [|tauto].
  rewrite Nat.eqb_eq. apply length_zero_iff_nil.
Qed.

Lemma keys_app {num} (p q : Params num) : keys (p ++ q)%list = (keys p ++ keys q)%list.
Proof. apply map_app. Qed.

Lemma is_key_app {num} (p q : Params num) name :
  is_key name (p ++ q)%list = is_key name p || is_key name q.
Proof. unfold is_key. rewrite keys_app. apply existsb_app. Qed.

(** X6.  More parameters never make more missing: the names missing
    from a larger map are among those missing from the smaller one, and
    a template valid for a map stays valid when entries are added. *)
Theorem validateParameters_monotone {num} `{JsNumber num}
        (template : Template.t num) (params more : Params num) :
  incl (missing (validateParameters template (params ++ more)%list))
       (missing (validateParameters template params))
  /\ (valid (validateParameters template params) = true ->
      valid (validateParameters template (params ++ more)%list) = true).
Proof.
  assert (Hincl : incl (missing (validateParameters template (params ++ more)%list))
                       (missing (validateParameters template params))).
  { rewrite !validateParameters_missing. intros name Hin.
    apply in_map_iff in Hin as (p & <- & Hp). apply filter_In in Hp as [Hp Habs].
    apply in_map, filter_In. split; [exact Hp|].
    unfold required_and_undefined in *.
    destruct (TemplateParameter.required p) as [[|]|]; try discriminate.
    rewrite is_key_app in Habs. apply andb_true_iff in Habs as [Habs Hinh].
    apply negb_true_iff, orb_false_iff in Habs as [Hk _].
    now rewrite Hk, Hinh. }
  split; [exact Hincl|].
  rewrite !validateParameters_valid. intros Hnil. rewrite Hnil in Hincl.
  destruct (missing (validateParameters template (params ++ more)%list)) as [|name l];
    [reflexivity|].
  destruct (Hincl name). now left.
Qed.

Lemma validateParameters_monotone_witness :
  valid (validateParameters test_template (test_params ++ [("extra", SBoolean true)])%list)
  = true.
Proof.
  apply (proj2 (validateParameters_monotone test_template test_params
                  [("extra", SBoolean true)])).
  reflexivity.
Defined.

(** X7.  Supplying a value for every name reported missing makes the
    template valid. *)
Theorem validateParameters_fill_in {num} `{JsNumber num}
        (template : Template.t num) (params : Params num) (value : scalar num) :
  valid (validateParameters template
           (params ++ map (fun name => (name, value))
                          (missing (validateParameters template params)))%list)
  = true.
Proof.
  apply validateParameters_valid. rewrite validateParameters_missing.
  apply (f_equal (map (@TemplateParameter.name num)) (y := [])).
  apply filter_nil_iff. intros p Hp. unfold required_and_undefined.
  destruct (TemplateParameter.required p) as [[|]|] eqn:Hreq; try reflexivity.
  destruct (is_inherited (TemplateParameter.name p)) eqn:Hinh;
    [apply andb_false_r|].
  rewrite andb_true_r. apply negb_false_iff. rewrite is_key_app.
  destruct (is_key (TemplateParameter.name p) params) eqn:Hkey; [reflexivity|].
  cbn [orb]. apply is_key_In. unfold keys. rewrite map_map. cbn [fst]. rewrite map_id.
  rewrite validateParameters_missing. apply in_map, filter_In. split; [exact Hp|].
  unfold required_and_undefined. now rewrite Hreq, Hkey, Hinh.
Qed.

(** ** Hostname splitting *)

(** X26.  What [validateParameters] reports, member names included:
    without a parameters list [{valid: true, missing: []}]; otherwise
    [missing] is the names of the parameters with [required == true]
    whose name is neither a key of the parameter map nor the name of a
    member of [Object.prototype], in declaration order, and [valid] holds
    exactly when [missing] is empty.  A key with a falsy value counts as
    provided. *)
Theorem validateParameters_reports {num} `{JsNumber num}
        (template : Template.t num) (params : Params num) :
  match Template.parameters template with
  | None => validateParameters template params = {| valid := true; missing := [] |}
  | Some ps =>
      missing (validateParameters template params)
      = map (@TemplateParameter.name num) (filter (required_and_undefined params) ps)
  end
  /\ (valid (validateParameters template params) = true
      <-> missing (validateParameters template params) = [])
  /\ (valid (validateParameters template params) = true
      <-> forall p, In p (declared template) ->
                    TemplateParameter.required p = Some true ->
                    In (TemplateParameter.name p) (keys params)
                    \/ In (TemplateParameter.name p) (map fst Object_prototype))
  /\ validateParameters (requires "port") [("port", SNumber 0%Z)]
     = {| valid := true; missing := [] |}
  /\ validateParameters (requires "port") [("Port", SNumber 0%Z)]
     = {| valid := false; missing := ["port"] |}.
Proof.
  split; [|split; [apply validateParameters_valid|split; [|split; vm_compute; reflexivity]]].
  - unfold validateParameters.
    destruct (Template.parameters template) as [ps|]; cbn [missing]; [|reflexivity].
    now rewrite missing_filter.
  - rewrite validateParameters_valid, validateParameters_missing. split.
    + intros Hnil p Hin Hreq. apply map_eq_nil in Hnil.
      pose proof (proj1 (filter_nil_iff _ _) Hnil p Hin) as Hp.
      unfold required_and_undefined in Hp. rewrite Hreq in Hp.
      apply andb_false_iff in Hp as [Hp|Hp]; apply negb_false_iff in Hp.
      * left. now apply is_key_In.
      * right. now apply is_inherited_In.
    + intros Hall. apply (f_equal (map (@TemplateParameter.name num)) (y := [])).
      apply filter_nil_iff. intros p Hin. unfold required_and_undefined.
      destruct (TemplateParameter.required p) as [[|]|] eqn:Hreq; try reflexivity.
      apply andb_false_iff.
      destruct (Hall p Hin Hreq) as [Hkey|Hmember].
      * left. now apply negb_false_iff, is_key_In.
      * right. now apply negb_false_iff, is_inherited_In.
Qed.

Lemma split_nonempty s sep : split s sep <> [].
Proof.
  destruct s as [|c s]; cbn [split]; [discriminate|].
  destruct (Ascii.eqb c sep); [discriminate|].
  destruct (split s sep); discriminate.
Qed.

Lemma concat_cons sep x l :
  l <> [] -> String.concat sep (x :: l) = x ++ sep ++ String.concat sep l.
Proof. destruct l; [congruence | reflexivity]. Qed.

Lemma concat_app sep l1 l2 :
  l1 <> [] -> l2 <> [] ->
  String.concat sep (l1 ++ l2) = String.concat sep l1 ++ sep ++ String.concat sep l2.
Proof.
  intros H1 H2. induction l1 as [|x l1 IH]; [congruence|].
  destruct l1 as [|y l1].
  - cbn [app]. now rewrite concat_cons.
  - change ((x :: y :: l1) ++ l2)%list with (x :: ((y :: l1) ++ l2))%list.
    rewrite concat_cons by discriminate.
    rewrite IH by discriminate.
    rewrite (concat_cons sep x (l := y :: l1)) by discriminate.
    now rewrite !append_assoc.
Qed.

Lemma join_split s : String.concat "." (split s ".") = s.
Proof.
  induction s as [|c s IH]; [reflexivity|].
  cbn [split]. pose proof (split_nonempty s ".") as Hne.
  destruct (Ascii.eqb_spec c "."%char) as [->|Hc].
  - rewrite concat_cons by exact Hne. cbn [append]. now rewrite IH.
  - destruct (split s ".") as [|h t]; [congruence|].
    destruct t as [|h' t].
    + cbn [String.concat] in *. now rewrite IH.
    + rewrite concat_cons in * by discriminate. now rewrite <- IH.
Qed.

Lemma split_dot_free s : Forall (fun label => dot_free label = true) (split s ".").
Proof.
  induction s as [|c s IH]; cbn [split].
  - constructor; [reflexivity | constructor].
  - destruct (Ascii.eqb c ".") eqn:Hc.
    + constructor; [reflexivity | exact IH].
    + pose proof (split_nonempty s ".") as Hne.
      destruct (split s ".") as [|h t]; [congruence|].
      inversion IH as [|? ? Hh Ht]; subst. constructor; [|exact Ht].
      unfold dot_free in *. cbn [all_chars]. now rewrite Hc, Hh.
Qed.

Lemma split_dot_free_label s : dot_free s = true -> split s "." = [s].
Proof.
  induction s as [|c s IH]; [reflexivity|].
  unfold dot_free in *. cbn [all_chars split]. intros Hs.
  apply andb_true_iff in Hs as [Hc Hs]. apply negb_true_iff in Hc.
  now rewrite Hc, (IH Hs).
Qed.

Lemma split_append_dot a b :
  dot_free a = true -> split (a ++ "." ++ b) "." = a :: split b ".".
Proof.
  induction a as [|c a IH]; intros Ha.
  - reflexivity.
  - unfold dot_free in *. cbn [all_chars] in Ha.
    apply andb_true_iff in Ha as [Hc Ha]. apply negb_true_iff in Hc.
    cbn [append split]. rewrite Hc. change (a ++ String "." b) with (a ++ "." ++ b).
    now rewrite (IH Ha).
Qed.

Lemma split_dotted ls :
  ls <> [] -> Forall (fun label => dot_free label = true) ls ->
  split (String.concat "." ls) "." = ls.
Proof.
  intros Hne Hall. induction ls as [|x ls IH]; [congruence|].
  inversion Hall as [|? ? Hx Hls]; subst.
  destruct ls as [|y ls].
  - cbn [String.concat]. now apply split_dot_free_label.
  - rewrite concat_cons by discriminate.
    rewrite split_append_dot by exact Hx. f_equal. apply IH; [discriminate | exact Hls].
Qed.

Lemma Forall_skipn {T} (P : T -> Prop) n (l : list T) : Forall P l -> Forall P (skipn n l).
Proof.
  intros Hall. apply Forall_forall. intros x Hin.
  rewrite Forall_forall in Hall. apply Hall.
  rewrite <- (firstn_skipn n l). apply in_or_app. now right.
Qed.

(** X8.  The two parts give the hostname back: when a subdomain is
    returned, subdomain, a dot and domain are the hostname; when none is,
    the domain is the hostname. *)
Theorem splitHostname_reassembles (hostname : string) :
  match subdomain (splitHostname hostname) with
  | Some sub => sub ++ "." ++ domain (splitHostname hostname) = hostname
  | None => domain (splitHostname hostname) = hostname
  end.
Proof.
  rewrite splitHostname_cases.
  assert (Hjoin : forall n, (0 < n < List.length (labels hostname))%nat ->
            dotted (leading_labels n (labels hostname)) ++ "."
            ++ dotted (last_labels n (labels hostname)) = hostname).
  { intros n Hn. unfold dotted, leading_labels, last_labels.
    rewrite <- concat_app.
    - rewrite firstn_skipn. apply join_split.
    - intros Hnil. apply (f_equal (@List.length string)) in Hnil.
      rewrite length_firstn in Hnil. cbn [List.length] in Hnil. lia.
    - intros Hnil. apply (f_equal (@List.length string)) in Hnil.
      rewrite length_skipn in Hnil. cbn [List.length] in Hnil. lia. }
  destruct (2 <? List.length (labels hostname))%nat eqn:H2; [|reflexivity].
  apply Nat.ltb_lt in H2.
  destruct (String_match _ sld_re).
  - destruct (3 <? List.length (labels hostname))%nat eqn:H3; [|reflexivity].
    apply Nat.ltb_lt in H3. cbn [subdomain domain]. apply Hjoin. lia.
  - cbn [subdomain domain]. apply Hjoin. lia.
Qed.

Lemma labels_of_last n hostname :
  (0 < n <= List.length (labels hostname))%nat ->
  labels (dotted (last_labels n (labels hostname))) = last_labels n (labels hostname).
Proof.
  intros Hn. unfold labels at 1, dotted. apply split_dotted.
  - intros Hnil. apply (f_equal (@List.length string)) in Hnil.
    unfold last_labels in Hnil. rewrite length_skipn in Hnil.
    cbn [List.length] in Hnil. lia.
  - apply Forall_skipn, split_dot_free.
Qed.

(** X9.  The domain is a fixed point: splitting the domain that
    [splitHostname] returns gives that domain again, with no subdomain. *)
Theorem splitHostname_domain_fixed (hostname : string) :
  splitHostname (domain (splitHostname hostname))
  = {| domain := domain (splitHostname hostname); subdomain := None |}.
Proof.
  rewrite (splitHostname_cases hostname).
  destruct (2 <? List.length (labels hostname))%nat eqn:H2.
  - apply Nat.ltb_lt in H2.
    pose proof (String_match_sld (dotted (last_labels 2 (labels hostname)))) as Hm.
    destruct (String_match (dotted (last_labels 2 (labels hostname))) sld_re) eqn:Em.
    + destruct (3 <? List.length (labels hostname))%nat eqn:H3.
      * apply Nat.ltb_lt in H3. cbn [domain].
        rewrite splitHostname_cases, labels_of_last by lia.
        assert (Hlen : List.length (last_labels 3 (labels hostname)) = 3%nat).
        { unfold last_labels. rewrite length_skipn. lia. }
        assert (Htld : last_labels 2 (last_labels 3 (labels hostname))
                       = last_labels 2 (labels hostname)).
        { unfold last_labels at 1. rewrite Hlen. unfold last_labels.
          rewrite skipn_skipn. f_equal. lia. }
        rewrite Hlen, Htld, Em. reflexivity.
      * cbn [domain]. apply Nat.ltb_ge in H3.
        rewrite splitHostname_cases.
        assert (H2b : (2 <? List.length (labels hostname))%nat = true)
          by now apply Nat.ltb_lt.
        assert (H3b : (3 <? List.length (labels hostname))%nat = false)
          by now apply Nat.ltb_ge.
        now rewrite H2b, Em, H3b.
    + cbn [domain]. rewrite splitHostname_cases, labels_of_last by lia.
      assert (Hlen : List.length (last_labels 2 (labels hostname)) = 2%nat).
      { unfold last_labels. rewrite length_skipn. lia. }
      now rewrite Hlen.
  - cbn [domain]. rewrite splitHostname_cases. now rewrite H2.
Qed.

(** ** The serialized query *)

Lemma all_chars_append p a b :
  all_chars p (a ++ b) = all_chars p a && all_chars p b.
Proof.
  induction a as [|c a IH]; cbn [append all_chars]; [reflexivity|].
  now rewrite IH, andb_assoc.
Qed.

Lemma encode_byte_safe c : all_chars query_safe (URLSearchParams.encode_byte c) = true.
Proof. destruct c as [[] [] [] [] [] [] [] []]; vm_compute; reflexivity. Qed.

Lemma encode_safe s : all_chars query_safe (URLSearchParams.encode s) = true.
Proof.
  induction s as [|c s IH]; [reflexivity|].
  cbn [URLSearchParams.encode]. now rewrite all_chars_append, encode_byte_safe, IH.
Qed.

Lemma decode_encode_byte c r :
  decode (URLSearchParams.encode_byte c ++ r) = String c (decode r).
Proof. destruct c as [[] [] [] [] [] [] [] []]; reflexivity. Qed.

Lemma decode_encode s : decode (URLSearchParams.encode s) = s.
Proof.
  induction s as [|c s IH]; [reflexivity|].
  cbn [URLSearchParams.encode]. now rewrite decode_encode_byte, IH.
Qed.



Lemma count_char_append c a b :
  count_char c (a ++ b) = (count_char c a + count_char c b)%nat.
Proof.
  induction a as [|x a IH]; [reflexivity|].
  cbn [append count_char]. rewrite IH. lia.
Qed.

Lemma count_char_absent c t :
  query_safe c = false -> all_chars query_safe t = true -> count_char c t = 0%nat.
Proof.
  intros Hc. induction t as [|a t IH]; [reflexivity|].
  cbn [all_chars count_char]. intros Ht. apply andb_true_iff in Ht as [Ha Ht].
  destruct (Ascii.eqb_spec a c) as [->|_]; [congruence|]. now rewrite (IH Ht).
Qed.

Lemma count_char_pair c (nv : string * string) :
  query_safe c = false ->
  count_char c (URLSearchParams.encode (fst nv) ++ "=" ++ URLSearchParams.encode (snd nv))
  = if Ascii.eqb "=" c then 1%nat else 0%nat.
Proof.
  intros Hc. rewrite !count_char_append.
  rewrite (count_char_absent c (URLSearchParams.encode (fst nv)) Hc (encode_safe _)).
  rewrite (count_char_absent c (URLSearchParams.encode (snd nv)) Hc (encode_safe _)).
  cbn [count_char]. destruct (Ascii.eqb "=" c); lia.
Qed.

Lemma count_char_toString c q :
  query_safe c = false ->
  count_char c (URLSearchParams.toString q)
  = ((if Ascii.eqb "=" c then List.length q else 0)
     + (if Ascii.eqb "&" c then List.length q - 1 else 0))%nat.
Proof.
  intros Hc. unfold URLSearchParams.toString.
  induction q as [|nv q IH].
  { cbn [map String.concat count_char List.length].
    destruct (Ascii.eqb "=" c), (Ascii.eqb "&" c); reflexivity. }
  destruct q as [|nv' q].
  - cbn [map String.concat List.length]. rewrite (count_char_pair c nv Hc).
    destruct (Ascii.eqb "=" c), (Ascii.eqb "&" c); reflexivity.
  - cbn [map] in *. rewrite concat_cons by discriminate.
    rewrite count_char_append, (count_char_pair c nv Hc).
    change ("&" ++ ?x) with (String "&" x). cbn [count_char]. rewrite IH.
    cbn [List.length].
    destruct (Ascii.eqb "=" c), (Ascii.eqb "&" c); lia.
Qed.

(** X10.  The query the URL builders serialize has exactly one [=] per
    pair and one [&] between two pairs, and no space and none of
    [? # /] at all, whatever bytes the names and values hold. *)
Theorem toString_separators (q : URLSearchParams.t) :
  count_char "=" (URLSearchParams.toString q) = List.length q
  /\ count_char "&" (URLSearchParams.toString q) = (List.length q - 1)%nat
  /\ count_char "?" (URLSearchParams.toString q) = 0%nat
  /\ count_char "#" (URLSearchParams.toString q) = 0%nat
  /\ count_char "/" (URLSearchParams.toString q) = 0%nat
  /\ count_char " " (URLSearchParams.toString q) = 0%nat.
Proof.
  repeat split; rewrite count_char_toString by reflexivity;
    cbn [Ascii.eqb Bool.eqb]; lia.
Qed.

Lemma all_chars_impl (p q : ascii -> bool) s :
  (forall c, p c = true -> q c = true) -> all_chars p s = true -> all_chars q s = true.
Proof.
  intros Hpq. induction s as [|c s IH]; [reflexivity|].
  cbn [all_chars]. intros Hs. apply andb_true_iff in Hs as [Hc Hs].
  now rewrite (Hpq c Hc), (IH Hs).
Qed.

Lemma split_plain sep s :
  all_chars (fun c => negb (Ascii.eqb c sep)) s = true -> split s sep = [s].
Proof.
  induction s as [|c s IH]; [reflexivity|].
  cbn [all_chars split]. intros Hs.
  apply andb_true_iff in Hs as [Hc Hs]. apply negb_true_iff in Hc.
  now rewrite Hc, (IH Hs).
Qed.

Lemma split_append_sep sep a b :
  all_chars (fun c => negb (Ascii.eqb c sep)) a = true ->
  split (a ++ String sep b) sep = a :: split b sep.
Proof.
  induction a as [|c a IH]; intros Ha.
  - cbn [append split]. now rewrite Ascii.eqb_refl.
  - cbn [all_chars] in Ha. apply andb_true_iff in Ha as [Hc Ha].
    apply negb_true_iff in Hc. cbn [append split]. now rewrite Hc, (IH Ha).
Qed.

Lemma break_eq_append a b :
  all_chars (fun c => negb (Ascii.eqb c "=")) a = true ->
  break_eq (a ++ "=" ++ b) = (a, b).
Proof.
  induction a as [|c a IH]; intros Ha; [reflexivity|].
  cbn [all_chars] in Ha. apply andb_true_iff in Ha as [Hc Ha].
  apply negb_true_iff in Hc. cbn [append break_eq]. rewrite Hc.
  change (a ++ String "=" b) with (a ++ "=" ++ b). now rewrite (IH Ha).
Qed.

Lemma encode_without c s :
  query_safe c = false ->
  all_chars (fun a => negb (Ascii.eqb a c)) (URLSearchParams.encode s) = true.
Proof.
  intros Hc. apply (all_chars_impl query_safe); [|apply encode_safe].
  intros a Ha. apply negb_true_iff.
  destruct (Ascii.eqb_spec a c) as [->|]; [congruence | reflexivity].
Qed.

Lemma pair_without_amp (nv : string * string) :
  all_chars (fun a => negb (Ascii.eqb a "&"))
            (URLSearchParams.encode (fst nv) ++ "=" ++ URLSearchParams.encode (snd nv))
  = true.
Proof.
  rewrite !all_chars_append, !encode_without by reflexivity. reflexivity.
Qed.

Lemma parse_pair_encoded (nv : string * string) :
  (decode (fst (break_eq (URLSearchParams.encode (fst nv) ++ "="
                          ++ URLSearchParams.encode (snd nv)))),
   decode (snd (break_eq (URLSearchParams.encode (fst nv) ++ "="
                          ++ URLSearchParams.encode (snd nv)))))
  = nv.
Proof.
  rewrite break_eq_append by (apply encode_without; reflexivity).
  cbn [fst snd]. rewrite !decode_encode. now destruct nv.
Qed.

Lemma split_toString q :
  q <> [] ->
  split (URLSearchParams.toString q) "&"
  = map (fun nv => URLSearchParams.encode (fst nv) ++ "="
                   ++ URLSearchParams.encode (snd nv)) q.
Proof.
  unfold URLSearchParams.toString. induction q as [|nv q IH]; [congruence|].
  intros _. destruct q as [|nv' q].
  - cbn [map String.concat]. apply split_plain, pair_without_amp.
  - cbn [map] in *. rewrite concat_cons by discriminate.
    change ("&" ++ ?x) with (String "&" x).
    rewrite split_append_sep by apply pair_without_amp.
    f_equal. apply IH. discriminate.
Qed.

Lemma parse_toString q : parse_query (URLSearchParams.toString q) = q.
Proof.
  unfold parse_query. destruct q as [|nv q]; [reflexivity|].
  assert (Hne : String.eqb (URLSearchParams.toString (nv :: q)) "" = false).
  { apply String.eqb_neq. intros Hnil.
    pose proof (split_toString (q := nv :: q)) as Hs. rewrite Hnil in Hs.
    specialize (Hs ltac:(discriminate)). cbn [split map] in Hs.
    injection Hs as Hs _. destruct (URLSearchParams.encode (fst nv)); discriminate. }
  rewrite Hne, split_toString by discriminate.
  rewrite map_map. rewrite <- (map_id (nv :: q)) at 2.
  apply map_ext. intros pair. apply parse_pair_encoded.
Qed.

(** X11.  The serialized query determines the list of parameters: two
    lists of name-value pairs with the same [toString()] are the same
    list, in the same order. *)
Theorem toString_injective (q1 q2 : URLSearchParams.t) :
  URLSearchParams.toString q1 = URLSearchParams.toString q2 <-> q1 = q2.
Proof.
  split; [|now intros ->].
  intros Heq. rewrite <- (parse_toString q1), <- (parse_toString q2). now rewrite Heq.
Qed.

Lemma append_cancel_l (a b c : string) : a ++ b = a ++ c -> b = c.
Proof. induction a as [|x a IH]; cbn [append]; intros E; [exact E | injection E; auto]. Qed.

(** ** The URL builders together *)

(** X12.  The synchronous URL determines the query that is sent: for the
    same settings, provider and service, two options with the same URL
    have the same list of query pairs (domain, host if present, and the
    parameters in their string form). *)
Theorem generateSyncURL_determines_query {num} `{JsNumber num}
        (settings : DomainConnectSettings.t) (o1 o2 : DomainConnectOptions.t num) :
  DomainConnectOptions.providerId o1 = DomainConnectOptions.providerId o2 ->
  DomainConnectOptions.serviceId o1 = DomainConnectOptions.serviceId o2 ->
  generateSyncURL settings o1 = generateSyncURL settings o2 ->
  sync_query o1 = sync_query o2.
Proof.
  intros Hp Hs Hurl. rewrite !generateSyncURL_eq in Hurl. unfold apply_path in Hurl.
  rewrite Hp, Hs in Hurl. apply append_cancel_l in Hurl. cbn [append] in Hurl.
  injection Hurl as Hq.
  rewrite <- (parse_toString (sync_query o1)), <- (parse_toString (sync_query o2)).
  now rewrite Hq.
Qed.

Lemma generateSyncURL_determines_query_witness :
  sync_query mockOptions = sync_query syncOptions.
Proof.
  apply (generateSyncURL_determines_query mockSettings mockOptions syncOptions);
    reflexivity.
Defined.


(** X13.  Without redirect URI, state and forced prompt the asynchronous
    URL is the synchronous URL built on [urlAsyncAPI]: when
    [urlAsyncAPI] equals [urlAPI], [generateAsyncURL] and
    [generateSyncURL] return the same URL. *)
Theorem generateAsyncURL_plain {num} `{JsNumber num}
        (settings : DomainConnectSettings.t) (options : DomainConnectOptions.t num) :
  truthy_bool (DomainConnectSettings.asyncEnabled settings) = true ->
  present (DomainConnectSettings.urlAsyncAPI settings)
  = Some (DomainConnectSettings.urlAPI settings) ->
  present (DomainConnectOptions.redirectUri options) = None ->
  present (DomainConnectOptions.state options) = None ->
  truthy_bool (DomainConnectOptions.forcePermission options) = false ->
  generateAsyncURL settings options = Some (generateSyncURL settings options).
Proof.
  intros Hon Hurl Hredirect Hstate Hforce.
  rewrite generateAsyncURL_eq, generateSyncURL_eq, Hon, Hurl.
  unfold async_query, sync_query, field. now rewrite Hredirect, Hstate, Hforce.
Qed.

Lemma generateAsyncURL_plain_witness :
  generateAsyncURL (formatSettingsUrl "example.com" None) plainOptions
  = Some (generateSyncURL (formatSettingsUrl "example.com" None) plainOptions).
Proof.
  apply (generateAsyncURL_plain (formatSettingsUrl "example.com" None) plainOptions);
    reflexivity.
Defined.

(** ** The wrappers against a network *)

Lemma exec_request_then {T} net history url (k : AxiosResponse -> io T)
      (handler : thrown -> io T) :
  (forall response, exists v, k response = Ret v) ->
  exec net history (try_catch (bind (axios_get url) k) handler)
  = match net history url with
    | Fulfilled response =>
        (EvGet url :: fst (exec net (history ++ [url])%list (k response)),
         snd (exec net (history ++ [url])%list (k response)))
    | Rejected reason =>
        (EvGet url :: fst (exec net (history ++ [url])%list (handler reason)),
         snd (exec net (history ++ [url])%list (handler reason)))
    end.
Proof.
  intros Hk. unfold axios_get. cbn [bind try_catch exec fst snd].
  destruct (net history url) as [response|reason]; cbn [bind try_catch].
  - destruct (Hk response) as [v Hv]. rewrite Hv. reflexivity.
  - reflexivity.
Qed.

Lemma exec_applyTemplateSynchronous {num} `{JsNumber num}
      (settings : DomainConnectSettings.t) (options : DomainConnectOptions.t num)
      net history :
  exec net history (applyTemplateSynchronous settings options)
  = if truthy_bool (DomainConnectSettings.syncEnabled settings) then
      match net history (generateSyncURL settings options) with
      | Fulfilled response =>
          ([EvGet (generateSyncURL settings options)],
           Resolves (read_status false response))
      | Rejected reason =>
          ([EvGet (generateSyncURL settings options);
            EvError "Error applying template synchronously:" reason],
           Resolves (failure (error_message reason)))
      end
    else ([], Resolves (failure "Synchronous mode not supported by DNS provider")).
Proof.
  unfold applyTemplateSynchronous.
  destruct (truthy_bool (DomainConnectSettings.syncEnabled settings));
    cbn [negb]; [|reflexivity].
  cbv zeta. fold (generateSyncURL settings options).
  rewrite exec_request_then.
  - destruct (net history (generateSyncURL settings options)) as [response|reason].
    + unfold read_status. cbn [andb].
      destruct (status response =? 200)%Z; reflexivity.
    + reflexivity.
  - intros response. destruct (status response =? 200)%Z; eauto.
Qed.

Lemma exec_checkAsyncStatus statusUrl net history :
  exec net history (checkAsyncStatus statusUrl)
  = match net history statusUrl with
    | Fulfilled response =>
        ([EvGet statusUrl], Resolves (read_status true response))
    | Rejected reason =>
        ([EvGet statusUrl; EvError "Error checking asynchronous status:" reason],
         Resolves (failure (error_message reason)))
    end.
Proof.
  unfold checkAsyncStatus. rewrite exec_request_then.
  - destruct (net history statusUrl) as [response|reason]; [|reflexivity].
    unfold read_status. cbn [andb].
    destruct (status response =? 200)%Z; [reflexivity|].
    destruct (status response =? 202)%Z; reflexivity.
  - intros response. destruct (status response =? 200)%Z; [eauto|].
    destruct (status response =? 202)%Z; eauto.
Qed.

(** X14.  With [syncEnabled] truthy, [applyTemplateSynchronous] makes
    exactly one request, to the URL [generateSyncURL] returns for the same
    settings and options.  It resolves to [{success: true}] when the
    answer has status 200, to "Unexpected status code: n" for any other
    status [n], and to the message of the failure when the request is
    rejected. *)
Theorem applyTemplateSynchronous_request {num} `{JsNumber num}
        (settings : DomainConnectSettings.t) (options : DomainConnectOptions.t num)
        (net : network) (history : list string) :
  truthy_bool (DomainConnectSettings.syncEnabled settings) = true ->
  requests (fst (exec net history (applyTemplateSynchronous settings options)))
  = [generateSyncURL settings options]
  /\ snd (exec net history (applyTemplateSynchronous settings options))
     = Resolves
         match net history (generateSyncURL settings options) with
         | Fulfilled response =>
             if (status response =? 200)%Z then
               {| DomainConnectResult.success := true;
                  DomainConnectResult.redirectUrl := None;
                  DomainConnectResult.error := None;
                  DomainConnectResult.asyncStatusUrl := None |}
             else
               {| DomainConnectResult.success := false;
                  DomainConnectResult.redirectUrl := None;
                  DomainConnectResult.error :=
                    Some ("Unexpected status code: "
                          ++ number_toString (status response));
                  DomainConnectResult.asyncStatusUrl := None |}
         | Rejected reason =>
             {| DomainConnectResult.success := false;
                DomainConnectResult.redirectUrl := None;
                DomainConnectResult.error := Some (error_message reason);
                DomainConnectResult.asyncStatusUrl := None |}
         end.
Proof.
  intros Hon. rewrite exec_applyTemplateSynchronous, Hon.
  destruct (net history (generateSyncURL settings options)) as [response|reason].
  - split; [reflexivity|]. cbn [snd]. unfold read_status. cbn [andb].
    destruct (status response =? 200)%Z; reflexivity.
  - split; reflexivity.
Qed.

Lemma applyTemplateSynchronous_request_witness :
  requests (fst (exec answers_200 [] (applyTemplateSynchronous mockSettings mockOptions)))
  = [generateSyncURL mockSettings mockOptions]
  /\ snd (exec answers_200 [] (applyTemplateSynchronous mockSettings mockOptions))
     = Resolves {| DomainConnectResult.success := true;
                   DomainConnectResult.redirectUrl := None;
                   DomainConnectResult.error := None;
                   DomainConnectResult.asyncStatusUrl := None |}.
Proof.
  apply (applyTemplateSynchronous_request mockSettings mockOptions answers_200 []).
  reflexivity.
Defined.

(** X15.  [applyTemplateSynchronous] never rejects and never makes more
    than one request, whatever the settings and the network; it reports
    success only if [syncEnabled] is truthy and the network answered the
    request for the synchronous URL with status 200. *)
Theorem applyTemplateSynchronous_safe {num} `{JsNumber num}
        (settings : DomainConnectSettings.t) (options : DomainConnectOptions.t num)
        (net : network) (history : list string) :
  exists result,
    snd (exec net history (applyTemplateSynchronous settings options)) = Resolves result
    /\ (List.length
          (requests (fst (exec net history (applyTemplateSynchronous settings options))))
        <= 1)%nat
    /\ (DomainConnectResult.success result = true ->
        truthy_bool (DomainConnectSettings.syncEnabled settings) = true
        /\ exists response,
             net history (generateSyncURL settings options) = Fulfilled response
             /\ status response = 200%Z).
Proof.
  rewrite exec_applyTemplateSynchronous.
  destruct (truthy_bool (DomainConnectSettings.syncEnabled settings)).
  - destruct (net history (generateSyncURL settings options)) as [response|reason].
    + eexists. split; [reflexivity|]. split; [cbn; lia|].
      unfold read_status. cbn [andb].
      destruct (status response =? 200)%Z eqn:Hs; [|discriminate].
      intros _. split; [reflexivity|]. exists response. split; [reflexivity|].
      now apply Z.eqb_eq.
    + eexists. split; [reflexivity|]. split; [cbn; lia | discriminate].
  - eexists. split; [reflexivity|]. split; [cbn; lia | discriminate].
Qed.

(** X16.  [checkAsyncStatus] makes exactly one request, to the status URL,
    and never rejects: status 200 gives [{success: true}], 202 gives
    "Operation still in progress", any other status "Unexpected status
    code: n", and a rejected request its failure message. *)
Theorem checkAsyncStatus_spec (statusUrl : string) (net : network) (history : list string) :
  requests (fst (exec net history (checkAsyncStatus statusUrl))) = [statusUrl]
  /\ snd (exec net history (checkAsyncStatus statusUrl))
     = Resolves
         match net history statusUrl with
         | Fulfilled response =>
             if (status response =? 200)%Z then
               {| DomainConnectResult.success := true;
                  DomainConnectResult.redirectUrl := None;
                  DomainConnectResult.error := None;
                  DomainConnectResult.asyncStatusUrl := None |}
             else if (status response =? 202)%Z then
               {| DomainConnectResult.success := false;
                  DomainConnectResult.redirectUrl := None;
                  DomainConnectResult.error := Some "Operation still in progress";
                  DomainConnectResult.asyncStatusUrl := None |}
             else
               {| DomainConnectResult.success := false;
                  DomainConnectResult.redirectUrl := None;
                  DomainConnectResult.error :=
                    Some ("Unexpected status code: "
                          ++ number_toString (status response));
                  DomainConnectResult.asyncStatusUrl := None |}
         | Rejected reason =>
             {| DomainConnectResult.success := false;
                DomainConnectResult.redirectUrl := None;
                DomainConnectResult.error := Some (error_message reason);
                DomainConnectResult.asyncStatusUrl := None |}
         end.
Proof.
  rewrite exec_checkAsyncStatus.
  destruct (net history statusUrl) as [response|reason].
  - split; [reflexivity|]. cbn [snd]. unfold read_status. cbn [andb].
    destruct (status response =? 200)%Z; [reflexivity|].
    destruct (status response =? 202)%Z; reflexivity.
  - split; reflexivity.
Qed.

(** ** Default settings *)

(** X17.  Without overrides, or with an override object that has no
    property, [formatSettingsUrl] yields settings with both flows on:
    [generateAsyncURL] returns a URL and [applyTemplateSynchronous] sends
    its request, both under [https://api.domainconnect.] followed by the
    domain. *)
Theorem formatSettingsUrl_defaults {num} `{JsNumber num}
        (domain : string) (options : DomainConnectOptions.t num)
        (net : network) (history : list string) :
  formatSettingsUrl domain (Some noOverrides) = formatSettingsUrl domain None
  /\ generateAsyncURL (formatSettingsUrl domain None) options
     = Some (("https://api.domainconnect." ++ domain)
             ++ "/v2/domainTemplates/providers/"
             ++ DomainConnectOptions.providerId options
             ++ "/services/" ++ DomainConnectOptions.serviceId options ++ "/apply"
             ++ "?" ++ URLSearchParams.toString (async_query options))
  /\ requests (fst (exec net history
                      (applyTemplateSynchronous (formatSettingsUrl domain None) options)))
     = [("https://api.domainconnect." ++ domain)
        ++ "/v2/domainTemplates/providers/"
        ++ DomainConnectOptions.providerId options
        ++ "/services/" ++ DomainConnectOptions.serviceId options ++ "/apply"
        ++ "?" ++ URLSearchParams.toString (sync_query options)].
Proof.
  split; [reflexivity|]. split.
  - rewrite generateAsyncURL_eq. cbn [formatSettingsUrl DomainConnectSettings.asyncEnabled
      DomainConnectSettings.urlAsyncAPI truthy_bool].
    unfold present. cbn [caller_given append String.eqb Ascii.eqb Bool.eqb].
    unfold apply_path. now rewrite !append_assoc.
  - rewrite exec_applyTemplateSynchronous.
    cbn [formatSettingsUrl DomainConnectSettings.syncEnabled truthy_bool].
    rewrite generateSyncURL_eq.
    cbn [formatSettingsUrl DomainConnectSettings.urlAPI].
    unfold apply_path. rewrite !append_assoc.
    match goal with |- context [net history ?u] => destruct (net history u) end;
      reflexivity.
Qed.

(** X18.  An override is taken even when its value is [undefined] or
    [false]: overriding [asyncEnabled] so turns the asynchronous flow off,
    [generateAsyncURL] returns [null]. *)
Theorem formatSettingsUrl_async_off {num} `{JsNumber num}
        (domain : string) (overrides : PartialSettings.t)
        (options : DomainConnectOptions.t num) :
  PartialSettings.asyncEnabled overrides = Some None
  \/ PartialSettings.asyncEnabled overrides = Some (Some false) ->
  generateAsyncURL (formatSettingsUrl domain (Some overrides)) options = None.
Proof.
  intros Hoff. rewrite generateAsyncURL_eq.
  cbn [formatSettingsUrl DomainConnectSettings.asyncEnabled].
  destruct Hoff as [-> | ->]; reflexivity.
Qed.

Lemma formatSettingsUrl_async_off_witness :
  generateAsyncURL (formatSettingsUrl "example.com" (Some asyncUndefined)) plainOptions
  = None.
Proof.
  apply (formatSettingsUrl_async_off "example.com" asyncUndefined plainOptions).
  left. reflexivity.
Defined.

(** ** The directory of DNS providers *)

Lemma lower_char_idem c : lower_char (lower_char c) = lower_char c.
Proof. destruct c as [[] [] [] [] [] [] [] []]; vm_compute; reflexivity. Qed.

Lemma lower_char_dot c : Ascii.eqb (lower_char c) "." = Ascii.eqb c ".".
Proof. destruct c as [[] [] [] [] [] [] [] []]; vm_compute; reflexivity. Qed.

Lemma toLowerCase_idem s : toLowerCase (toLowerCase s) = toLowerCase s.
Proof.
  induction s as [|c s IH]; [reflexivity|].
  cbn [toLowerCase]. now rewrite lower_char_idem, IH.
Qed.

Lemma toLowerCase_append a b : toLowerCase (a ++ b) = toLowerCase a ++ toLowerCase b.
Proof.
  induction a as [|c a IH]; [reflexivity|].
  cbn [append toLowerCase]. now rewrite IH.
Qed.

Lemma split_toLowerCase s : split (toLowerCase s) "." = map toLowerCase (split s ".").
Proof.
  induction s as [|c s IH]; [reflexivity|].
  cbn [toLowerCase split]. rewrite lower_char_dot, IH.
  destruct (Ascii.eqb c "."); [reflexivity|].
  pose proof (split_nonempty s ".") as Hne.
  destruct (split s ".") as [|h t]; [congruence | reflexivity].
Qed.

Lemma nth_lowered n l : toLowerCase (nth n (map toLowerCase l) "") = nth n (map toLowerCase l) "".
Proof.
  assert (Hnth : nth n (map toLowerCase l) "" = toLowerCase (nth n l ""))
    by apply (map_nth toLowerCase l "" n).
  rewrite Hnth. apply toLowerCase_idem.
Qed.

Lemma own_entry_In table provider entry :
  own_entry table provider = Some entry -> In (provider, entry) table.
Proof.
  induction table as [|[name e] table IH]; cbn [own_entry In]; [discriminate|].
  destruct (String.eqb_spec name provider) as [->|_].
  - intros Heq. injection Heq as ->. now left.
  - intros Hown. right. now apply IH.
Qed.

Lemma own_entry_None table provider :
  own_entry table provider = None <-> ~ In provider (map fst table).
Proof.
  induction table as [|[name e] table IH]; cbn [own_entry map fst In].
  - tauto.
  - destruct (String.eqb_spec name provider) as [->|Hne].
    + split; [discriminate | intros Hn; exfalso; apply Hn; now left].
    + rewrite IH. tauto.
Qed.

(** The entries of the directory have names of their own, none of them a
    name of [Object.prototype]. *)
Lemma own_entry_listed provider entry :
  In (provider, entry) dnsProviders ->
  own_entry dnsProviders provider = Some entry /\ is_inherited provider = false.
Proof.
  unfold dnsProviders. cbn [In]. intros Hin.
  repeat (destruct Hin as [Hin|Hin]; [injection Hin as <- <-; split; reflexivity|]).
  destruct Hin.
Qed.

(** The three answers of [getProviderLoginUrl]. *)
Lemma getProviderLoginUrl_cases provider :
  match getProviderLoginUrl provider with
  | Url url => exists entry, In (provider, entry) dnsProviders /\ url = loginUrl entry
  | Undefined =>
      ~ In provider (map fst dnsProviders) /\ In provider (map fst Object_prototype)
  | Null =>
      ~ In provider (map fst dnsProviders) /\ ~ In provider (map fst Object_prototype)
  end.
Proof.
  unfold getProviderLoginUrl, lookup_provider.
  destruct (own_entry dnsProviders provider) as [entry|] eqn:Hown.
  - exists entry. split; [now apply own_entry_In | reflexivity].
  - apply own_entry_None in Hown.
    pose proof (prototype_member_inherited provider) as Hinh.
    destruct (prototype_member provider); cbn [option_map].
    + split; [exact Hown | now apply is_inherited_In].
    + split; [exact Hown|]. intros Hin. apply is_inherited_In in Hin. congruence.
Qed.

Lemma lowercase_not_listed p url : toLowerCase p = p -> getProviderLoginUrl p <> Url url.
Proof.
  intros Hlow Hurl. pose proof (getProviderLoginUrl_cases p) as Hcases.
  rewrite Hurl in Hcases. destruct Hcases as (entry & Hin & _).
  unfold dnsProviders in Hin. cbn [In] in Hin.
  repeat (destruct Hin as [Hin|Hin];
          [injection Hin as <- _; vm_compute in Hlow; discriminate|]).
  destruct Hin.
Qed.

(** X19.  [getProviderLoginUrl] answers for the names of the directory
    only, letter for letter: it returns the login URL of the entry called
    [provider] when there is one, and so for no name written in lower
    case.  For any other name it returns no URL: [undefined] when the
    name is that of a member of [Object.prototype], which the directory
    object inherits, and [null] otherwise. *)
Theorem getProviderLoginUrl_listed (provider : string) :
  (forall url,
      getProviderLoginUrl provider = Url url
      <-> exists entry, In (provider, entry) dnsProviders /\ url = loginUrl entry)
  /\ (getProviderLoginUrl provider = Undefined
      <-> In provider (map fst Object_prototype))
  /\ (getProviderLoginUrl provider = Null
      <-> ~ In provider (map fst dnsProviders)
          /\ ~ In provider (map fst Object_prototype))
  /\ (toLowerCase provider = provider ->
      forall url, getProviderLoginUrl provider <> Url url)
  /\ getProviderLoginUrl "Cloudflare" = Url "https://dash.cloudflare.com/login"
  /\ getProviderLoginUrl "cloudflare" = Null
  /\ getProviderLoginUrl "constructor" = Undefined.
Proof.
  pose proof (getProviderLoginUrl_cases provider) as Hcases.
  assert (Hlisted : forall entry, In (provider, entry) dnsProviders ->
                                  getProviderLoginUrl provider = Url (loginUrl entry)).
  { intros entry Hin. apply own_entry_listed in Hin as [Hown _].
    unfold getProviderLoginUrl, lookup_provider. now rewrite Hown. }
  split; [|split; [|split; [|split; [|repeat split]]]].
  - intros url. split.
    + intros Hurl. now rewrite Hurl in Hcases.
    + intros (entry & Hin & ->). now apply Hlisted.
  - split.
    + intros Hun. rewrite Hun in Hcases. tauto.
    + intros Hmember. destruct (getProviderLoginUrl provider) as [url| |];
        [|tauto|reflexivity].
      destruct Hcases as (entry & Hin & _).
      apply own_entry_listed in Hin as [_ Hnot].
      apply is_inherited_In in Hmember. congruence.
  - split.
    + intros Hnull. now rewrite Hnull in Hcases.
    + intros [Hdir Hmember]. destruct (getProviderLoginUrl provider) as [url| |];
        [|reflexivity|tauto].
      destruct Hcases as (entry & Hin & _). exfalso. apply Hdir.
      apply (in_map fst) in Hin. exact Hin.
  - intros Hlow url. now apply lowercase_not_listed.
Qed.

Lemma getProviderLoginUrl_listed_witness :
  getProviderLoginUrl "godaddy" <> Url "https://sso.godaddy.com".
Proof.
  apply (proj1 (proj2 (proj2 (proj2 (getProviderLoginUrl_listed "godaddy"))))).
  reflexivity.
Defined.

Lemma first_lowered ns : nth 0 (map toLowerCase ns) "" = toLowerCase (nth 0 ns "").
Proof. apply (map_nth toLowerCase ns "" 0). Qed.

Lemma split_length_dot s : (2 <=? List.length (split s "."))%nat = negb (dot_free s).
Proof.
  induction s as [|c s IH]; [reflexivity|].
  unfold dot_free in *. cbn [split all_chars].
  pose proof (split_nonempty s ".") as Hne.
  destruct (Ascii.eqb c ".").
  - cbn [negb andb List.length]. destruct (split s "."); [congruence | reflexivity].
  - cbn [negb andb]. destruct (split s ".") as [|h t]; [congruence|]. exact IH.
Qed.

Lemma dot_free_lowered s : dot_free (toLowerCase s) = dot_free s.
Proof.
  unfold dot_free. induction s as [|c s IH]; [reflexivity|].
  cbn [toLowerCase all_chars]. now rewrite lower_char_dot, IH.
Qed.

(** The two ways [identifyDnsProvider] comes to its answer. *)
Lemma identifyDnsProvider_cases ns :
  identifyDnsProvider ns =
  match ns with
  | [] => None
  | first :: _ =>
      match find (fun named => entry_matches (map toLowerCase ns) (snd named))
                 dnsProviders with
      | Some named => Some (fst named)
      | None =>
          let parts := map toLowerCase (split first ".") in
          if dot_free first then None
          else Some (nth (List.length parts - 2) parts ""
                     ++ "." ++ nth (List.length parts - 1) parts "")
      end
  end.
Proof.
  unfold identifyDnsProvider. destruct ns as [|first rest]; [reflexivity|].
  cbn [List.length Nat.eqb]. fold (entry_matches (map toLowerCase (first :: rest))).
  change (fun named : string * ProviderEntry =>
            existsb (fun domain : string =>
                       existsb (fun ns : string => includes ns (toLowerCase domain))
                               (map toLowerCase (first :: rest)))
                    (domains (snd named)))
    with (fun named : string * ProviderEntry =>
            entry_matches (map toLowerCase (first :: rest)) (snd named)).
  destruct (find _ dnsProviders); [reflexivity|].
  cbv zeta. rewrite first_lowered. cbn [nth].
  rewrite split_length_dot, dot_free_lowered, split_toLowerCase.
  destruct (dot_free first); reflexivity.
Qed.

Lemma find_first {T} (f : T -> bool) before x after :
  (forall y, In y before -> f y = false) -> f x = true ->
  find f (before ++ x :: after) = Some x.
Proof.
  intros Hbefore Hx. induction before as [|y before IH]; cbn [app find].
  - now rewrite Hx.
  - rewrite (Hbefore y) by now left. apply IH. intros z Hz. apply Hbefore. now right.
Qed.

(** X20.  The directory is a priority list: the answer of
    [identifyDnsProvider] is the first entry, in the order of the
    directory, one of whose patterns occurs in one of the nameservers,
    whatever their case and whatever later entries match. *)
Theorem identifyDnsProvider_first_match
        (nameservers : list string) (before after : list (string * ProviderEntry))
        (name : string) (entry : ProviderEntry) :
  dnsProviders = (before ++ (name, entry) :: after)%list ->
  nameservers <> [] ->
  (forall named, In named before ->
                 entry_matches (map toLowerCase nameservers) (snd named) = false) ->
  entry_matches (map toLowerCase nameservers) entry = true ->
  identifyDnsProvider nameservers = Some name.
Proof.
  intros Htable Hne Hbefore Hentry. rewrite identifyDnsProvider_cases.
  destruct nameservers as [|first rest]; [congruence|].
  rewrite Htable.
  rewrite (find_first (fun named => entry_matches (map toLowerCase (first :: rest))
                                      (snd named))
             before (name, entry) after); [reflexivity | exact Hbefore | exact Hentry].
Qed.

Lemma identifyDnsProvider_first_match_witness :
  identifyDnsProvider ["ns1.domaincontrol.com"; "NS2.Cloudflare.COM"] = Some "Cloudflare".
Proof.
  apply (@identifyDnsProvider_first_match
           ["ns1.domaincontrol.com"; "NS2.Cloudflare.COM"] [] (tl dnsProviders)
           "Cloudflare"
           {| domains := ["cloudflare.com"; "cloudflare-dns.com"];
              loginUrl := "https://dash.cloudflare.com/login" |}).
  - reflexivity.
  - discriminate.
  - intros named [].
  - vm_compute. reflexivity.
Defined.

(** X21.  Lower-casing the nameservers beforehand changes nothing:
    [identifyDnsProvider] does not tell upper from lower case. *)
Theorem identifyDnsProvider_ignores_case (nameservers : list string) :
  identifyDnsProvider (map toLowerCase nameservers) = identifyDnsProvider nameservers.
Proof.
  assert (Hlow : map toLowerCase (map toLowerCase nameservers)
                 = map toLowerCase nameservers).
  { rewrite map_map. apply map_ext. intros ns. apply toLowerCase_idem. }
  rewrite !identifyDnsProvider_cases, Hlow.
  destruct nameservers as [|first rest]; [reflexivity|]. cbn [map].
  destruct (find _ dnsProviders); [reflexivity|]. cbv zeta.
  rewrite dot_free_lowered, split_toLowerCase, map_map.
  rewrite (map_ext (fun x => toLowerCase (toLowerCase x)) toLowerCase)
    by (intros x; apply toLowerCase_idem).
  reflexivity.
Qed.

Lemma directory_names_nonempty :
  forallb (fun named => negb (String.eqb (fst named) "")) dnsProviders = true.
Proof. vm_compute. reflexivity. Qed.

Lemma identifyDnsProvider_nonempty ns p : identifyDnsProvider ns = Some p -> p <> "".
Proof.
  rewrite identifyDnsProvider_cases. destruct ns as [|first rest]; [discriminate|].
  destruct (find _ dnsProviders) as [named|] eqn:Hfind.
  - intros Hp. injection Hp as <-. apply find_some in Hfind as [Hin _].
    pose proof directory_names_nonempty as Hall. rewrite forallb_forall in Hall.
    specialize (Hall named Hin). apply negb_true_iff, String.eqb_neq in Hall. exact Hall.
  - cbv zeta. destruct (dot_free first); [discriminate|].
    intros Hp. injection Hp as <-.
    destruct (nth _ (map toLowerCase (split first ".")) ""); discriminate.
Qed.

Lemma last_two (l : list string) :
  (2 <= List.length l)%nat ->
  dotted (last_labels 2 l)
  = nth (List.length l - 2) l "" ++ "." ++ nth (List.length l - 1) l "".
Proof.
  unfold dotted, last_labels. induction l as [|a l IH]; cbn [List.length]; [lia|].
  intros Hlen. destruct l as [|b l]; cbn [List.length] in *; [lia|].
  destruct l as [|c l]; [reflexivity|].
  cbn [List.length] in *.
  replace (S (S (S (List.length l))) - 2)%nat with (S (S (S (List.length l)) - 2))%nat by lia.
  replace (S (S (S (List.length l))) - 1)%nat with (S (S (S (List.length l)) - 1))%nat by lia.
  cbn [skipn nth]. apply IH. lia.
Qed.

Lemma member_names_dot_free :
  forallb dot_free (map fst Object_prototype) = true.
Proof. vm_compute. reflexivity. Qed.

Lemma dotted_name_not_inherited a b :
  ~ In (a ++ "." ++ b) (map fst Object_prototype).
Proof.
  intros Hin. pose proof member_names_dot_free as Hall.
  rewrite forallb_forall in Hall. specialize (Hall _ Hin).
  unfold dot_free in Hall. rewrite all_chars_append in Hall.
  apply andb_true_iff in Hall as [_ Hall]. cbn [append all_chars] in Hall.
  rewrite Ascii.eqb_refl in Hall. discriminate.
Qed.

(** X22.  What [identifyDnsProvider] answers: a name of the directory
    exactly when a pattern of that entry occurs in a nameserver;
    otherwise, when nothing of the directory matches, the last two labels
    of the first nameserver in lower case, joined by a dot, for which
    [getProviderLoginUrl] returns [null]; and [null] only for an empty
    list or when nothing matches and the first nameserver has no dot. *)
Theorem identifyDnsProvider_answer (nameservers : list string) :
  let unmatched :=
    forall named, In named dnsProviders ->
                  entry_matches (map toLowerCase nameservers) (snd named) = false in
  match identifyDnsProvider nameservers with
  | Some provider =>
      (exists entry, In (provider, entry) dnsProviders
                     /\ entry_matches (map toLowerCase nameservers) entry = true)
      \/ (unmatched
          /\ provider
             = dotted (last_labels 2 (labels (toLowerCase (nth 0 nameservers ""))))
          /\ (2 <= List.length (labels (nth 0 nameservers "")))%nat
          /\ toLowerCase provider = provider
          /\ getProviderLoginUrl provider = Null
          /\ exists label tld, provider = label ++ "." ++ tld)
  | None =>
      nameservers = []
      \/ (unmatched /\ dot_free (nth 0 nameservers "") = true)
  end
  /\ identifyDnsProvider ["NS1.UnknownProvider.COM"; "ns2.elsewhere.net"]
     = Some "unknownprovider.com"
  /\ identifyDnsProvider ["a.b.ns.example.co.uk"] = Some "co.uk"
  /\ identifyDnsProvider ["localhost"] = None.
Proof.
  cbv zeta. split; [|repeat split; vm_compute; reflexivity].
  rewrite identifyDnsProvider_cases.
  destruct nameservers as [|first rest]; [now left|].
  destruct (find _ dnsProviders) as [[name entry]|] eqn:Hfind.
  - left. apply find_some in Hfind as [Hin Hmatch]. exists entry. auto.
  - pose proof (find_none _ _ Hfind) as Hnone. cbv beta in Hnone. cbv zeta.
    destruct (dot_free first) eqn:Hdot.
    + right. split; [exact Hnone | exact Hdot].
    + right. split; [exact Hnone|]. cbn [nth].
      set (parts := map toLowerCase (split first ".")).
      assert (Hlen : (2 <= List.length (split first "."))%nat).
      { apply Nat.leb_le. now rewrite split_length_dot, Hdot. }
      assert (Hparts : (2 <= List.length parts)%nat)
        by (unfold parts; now rewrite length_map).
      assert (Hlow : toLowerCase
                       (nth (List.length parts - 2) parts ""
                        ++ "." ++ nth (List.length parts - 1) parts "")
                     = nth (List.length parts - 2) parts ""
                       ++ "." ++ nth (List.length parts - 1) parts "").
      { unfold parts. now rewrite !toLowerCase_append, !nth_lowered. }
      split; [|split; [exact Hlen|split; [exact Hlow|split; [|eauto]]]].
      * unfold labels. rewrite split_toLowerCase. fold parts.
        symmetry. now apply last_two.
      * pose proof (getProviderLoginUrl_cases
                      (nth (List.length parts - 2) parts ""
                       ++ "." ++ nth (List.length parts - 1) parts "")) as Hcases.
        destruct (getProviderLoginUrl _) as [url| |] eqn:Hurl; [|reflexivity|].
        -- exfalso. exact (lowercase_not_listed Hlow Hurl).
        -- exfalso. destruct Hcases as [_ Hmember].
           exact (dotted_name_not_inherited _ _ Hmember).
Qed.

(** X23.  [getDnsProviderInfo] reports the domain it was asked for, and
    the login URL it reports is always the directory's URL for the
    provider it reports.  When the resolver fails it reports no
    nameservers, the provider "Unknown", no login URL and the message of
    the failure; otherwise the nameservers found and the provider
    identified, "Unknown" if none. *)
Theorem getDnsProviderInfo_spec (resolveNs : string -> list string + thrown)
        (domain : string) :
  let info := getDnsProviderInfo resolveNs domain in
  info_domain info = domain
  /\ info_loginUrl info = getProviderLoginUrl (info_provider info)
  /\ match resolveNs domain with
     | inl nameservers =>
         info_nameservers info = nameservers
         /\ info_error info = None
         /\ info_provider info
            = match identifyDnsProvider nameservers with
              | Some provider => provider
              | None => "Unknown"
              end
     | inr failure_ =>
         info_nameservers info = []
         /\ info_provider info = "Unknown"
         /\ info_loginUrl info = Null
         /\ info_error info = Some (error_message failure_)
     end.
Proof.
  cbv zeta. unfold getDnsProviderInfo.
  destruct (resolveNs domain) as [nameservers|failure_];
    cbn [info_domain info_loginUrl info_provider info_nameservers info_error].
  - destruct (identifyDnsProvider nameservers) as [provider|] eqn:Hid.
    + apply identifyDnsProvider_nonempty in Hid.
      unfold truthy_string, value_of. apply String.eqb_neq in Hid. rewrite Hid.
      cbn [negb]. repeat split.
    + cbn [truthy_string]. repeat split.
  - repeat split.
Qed.

(** ** Options and parameters in one query *)

(** X24.  The host option is sent like a parameter: a present host [h]
    gives the same synchronous URL as no host and a first parameter named
    ["host"] with the value [h].  A parameter of that name cannot be told
    from the option. *)
Theorem generateSyncURL_host_as_parameter {num} `{JsNumber num}
        (settings : DomainConnectSettings.t) (options : DomainConnectOptions.t num)
        (h : string) (params : Params num) :
  h <> "" ->
  generateSyncURL settings (with_host_params options (Some h) params)
  = generateSyncURL settings
      (with_host_params options None (("host", SString h) :: params)).
Proof.
  intros Hh. rewrite !generateSyncURL_eq. unfold apply_path, sync_query, field, present.
  cbn [with_host_params DomainConnectOptions.domain DomainConnectOptions.providerId
       DomainConnectOptions.serviceId DomainConnectOptions.params
       DomainConnectOptions.host caller_given entries_of map fst snd ToString].
  apply String.eqb_neq in Hh. rewrite Hh. reflexivity.
Qed.

Lemma generateSyncURL_host_as_parameter_witness :
  generateSyncURL mockSettings (with_host_params mockOptions (Some "blog") [])
  = generateSyncURL mockSettings
      (with_host_params mockOptions None [("host", SString "blog")]).
Proof.
  apply (generateSyncURL_host_as_parameter mockSettings mockOptions (h := "blog") []).
  discriminate.
Defined.

(** * The library's own tests of the remaining functions *)

Example formatSettingsUrl_default :
  formatSettingsUrl "example.com" None
  = {| DomainConnectSettings.urlAPI := "https://api.domainconnect.example.com";
       DomainConnectSettings.syncEnabled := Some true;
       DomainConnectSettings.asyncEnabled := Some true;
       DomainConnectSettings.urlAsyncAPI := Some "https://api.domainconnect.example.com" |}.
Proof. reflexivity. Qed.

Example formatSettingsUrl_overrides :
  formatSettingsUrl "example.com"
    (Some {| PartialSettings.urlAPI := None;
             PartialSettings.syncEnabled := Some (Some false);
             PartialSettings.asyncEnabled := None;
             PartialSettings.urlAsyncAPI :=
               Some (Some "https://async.domainconnect.example.com") |})
  = {| DomainConnectSettings.urlAPI := "https://api.domainconnect.example.com";
       DomainConnectSettings.syncEnabled := Some false;
       DomainConnectSettings.asyncEnabled := Some true;
       DomainConnectSettings.urlAsyncAPI := Some "https://async.domainconnect.example.com" |}.
Proof. reflexivity. Qed.

Example getDnsProviderInfo_godaddy :
  getDnsProviderInfo (fun _ => inl ["ns1.domaincontrol.com"; "ns2.domaincontrol.com"])
                     "example.com"
  = {| info_domain := "example.com";
       info_nameservers := ["ns1.domaincontrol.com"; "ns2.domaincontrol.com"];
       info_provider := "GoDaddy";
       info_loginUrl := Url "https://sso.godaddy.com";
       info_error := None |}.
Proof. vm_compute. reflexivity. Qed.

Example getDnsProviderInfo_unknown_provider :
  getDnsProviderInfo (fun _ => inl ["ns1.unknownprovider.com"; "ns2.unknownprovider.com"])
                     "example.com"
  = {| info_domain := "example.com";
       info_nameservers := ["ns1.unknownprovider.com"; "ns2.unknownprovider.com"];
       info_provider := "unknownprovider.com";
       info_loginUrl := Null;
       info_error := None |}.
Proof. vm_compute. reflexivity. Qed.

Example getDnsProviderInfo_resolution_failed :
  getDnsProviderInfo resolver_down "example.com"
  = {| info_domain := "example.com";
       info_nameservers := [];
       info_provider := "Unknown";
       info_loginUrl := Null;
       info_error := Some "DNS resolution failed" |}.
Proof. reflexivity. Qed.

Example getDnsProviderInfo_route53 :
  info_provider (getDnsProviderInfo (fun _ => inl ["ns-1536.awsdns-00.co.uk"])
                                    "martinmueller.dev")
  = "Amazon Route 53".
Proof. vm_compute. reflexivity. Qed.
